(** * LifeDrawingGallery: the image collation pipeline

    A shallow embedding of the collation scripts "Image Collate V3.1" and
    "Image Collate V3.2" (duplicate detection against the CSV log, grouping by
    blackness / whiteness / colour, stitching into grids, run summary), with the
    properties of the specification stated and settled against it.

    Conventions of the embedding.
    - Python integers are [Z]; list lengths enter through [Z.of_nat].
    - The floating point features (whiteness and blackness ratios, mean colour)
      are taken as exact rationals [Q].  The third sort key of the grouper is
      the Euclidean norm of (colour - (128,128,128)); the model carries its
      square, which orders the same way as the norm does.
    - What PIL, numpy and imagehash compute for one file is data of the file
      system model: a file either decodes to its features or raises.  A
      decoded picture is an opaque handle.
    - Python dictionaries are [gmap]s.  The dictionary of a category mixes
      counters, a list and the dictionaries of its subcategories under string
      keys, and is modelled as such, with the exceptions a clash of keys
      raises.
    - The calls that read or change the outside world ([os.listdir],
      [Image.open], [save], the DDS export, the writing of the CSV file) are
      recorded, oldest first, in a trace.  Listing a directory that exists and
      saving a grid succeed; [Image.new] raises for a negative size.
    - An exception that [process_category] does not catch ends the run in the
      [except] clause of [stitch_images]; the state reached is kept.
    - The outer [while] loop is given as many turns as there are files plus
      one, and is shown never to need more. *)

From Stdlib Require Import Ascii String QArith Qabs Lqa.
From stdpp Require Import base option list list_numbers sorting strings pretty gmap.

Set Warnings "-register-all".

Local Open Scope Z_scope.

(** ** Decoded images and candidate records *)

(** A decoded picture resized to the working resolution: an opaque handle. *)
Inductive Image := Pixels (id : N).

(** The tuple [(image, dominant_color, whiteness, blackness, filename)] that
    [process_category] appends to [images]; [x[1]] is the colour, [x[2]] the
    whiteness and [x[3]] the blackness. *)
Record ImageRecord := mkImageRecord {
  image : Image;
  dominant_color : Q * Q * Q;
  whiteness : Q;
  blackness : Q;
  filename : string
}.

(** ** BatchGrouper *)

Module Grouper.

(** Python compares key tuples lexicographically. *)
Definition lex3 (c1 c2 c3 : comparison) : comparison :=
  match c1 with
  | Eq => match c2 with Eq => c3 | c => c end
  | c => c
  end.

(** Square of [np.linalg.norm(np.array(x[1]) - np.array([128, 128, 128]))]. *)
Definition gray_dist2 (x : ImageRecord) : Q :=
  let '(r, g, b) := dominant_color x in
  ((r - 128) * (r - 128) + (g - 128) * (g - 128) + (b - 128) * (b - 128))%Q.

(** V3.2: [key=lambda x: (-x[3], x[2], norm)], ascending. *)
Definition key_compare_v32 (x y : ImageRecord) : comparison :=
  lex3 (Qcompare (- blackness x) (- blackness y))
       (Qcompare (whiteness x) (whiteness y))
       (Qcompare (gray_dist2 x) (gray_dist2 y)).

(** V3.1: [key=lambda x: (x[3], -x[2], norm)], the order on keys before
    [reverse=True] is applied. *)
Definition key_compare_v31 (x y : ImageRecord) : comparison :=
  lex3 (Qcompare (blackness x) (blackness y))
       (Qcompare (- whiteness x) (- whiteness y))
       (Qcompare (gray_dist2 x) (gray_dist2 y)).

Definition not_gt (c : comparison) : bool :=
  match c with Gt => false | _ => true end.

(** [x] may stand before [y] in the output of V3.2. *)
Definition le_v32 (x y : ImageRecord) : bool := not_gt (key_compare_v32 x y).

(** [reverse=True] sorts as if every comparison were reversed. *)
Definition le_v31 (x y : ImageRecord) : bool := not_gt (key_compare_v31 y x).

Section stable_sort.
Context {A : Type} (le : A → A → bool).

(** [list.sort] is stable: an element is placed before the first element
    that may follow it, so equal keys keep the order they arrived in. *)
Fixpoint insert_stable (x : A) (l : list A) : list A :=
  match l with
  | [] => [x]
  | y :: r => if le x y then x :: y :: r else y :: insert_stable x r
  end.

Fixpoint py_sort (l : list A) : list A :=
  match l with
  | [] => []
  | x :: r => insert_stable x (py_sort r)
  end.
End stable_sort.

(** [group_images_by_blackness_whiteness_and_color], V3.2. *)
Definition group_images_by_blackness_whiteness_and_color
    (images : list ImageRecord) : list ImageRecord :=
  py_sort le_v32 images.

(** [group_images_by_blackness_whiteness_and_color], V3.1. *)
Definition group_images_by_blackness_whiteness_and_color_v31
    (images : list ImageRecord) : list ImageRecord :=
  py_sort le_v31 images.



End Grouper.

(** ** Compositor *)

Module Compositor.

(** The canvas made by [Image.new('RGB', size)] and the [paste] calls made on
    it, oldest first; an offset is [(x_offset, y_offset)]. *)
Record Canvas := mkCanvas {
  canvas_size : Z * Z;
  pastes : list (Image * (Z * Z))
}.

(** [images[:n]] *)
Definition py_slice_to {A} (n : Z) (l : list A) : list A :=
  if 0 <=? n then take (Z.to_nat n) l
  else take (length l - Z.to_nat (- n)) l.

(** One turn of the paste loop: [row, col = divmod(j, grid_size[1])]. *)
Definition paste_at (grid_size image_size : Z * Z) (j : nat) (x : ImageRecord)
    : Image * (Z * Z) :=
  let row := Z.of_nat j `div` grid_size.2 in
  let col := Z.of_nat j `mod` grid_size.2 in
  let x_offset := col * image_size.1 in
  let y_offset := row * image_size.2 in
  (image x, (x_offset, y_offset)).

(** The stitching block of [process_category]: the size handed to
    [Image.new] and the [paste] calls; [grid_size = (rows, cols)] and
    [image_size = (width, height)]. *)
Definition stitch (grid_size image_size : Z * Z) (images : list ImageRecord)
    : Canvas :=
  let grid_width := grid_size.2 * image_size.1 in
  let grid_height := grid_size.1 * image_size.2 in
  {| canvas_size := (grid_width, grid_height);
     pastes := imap (paste_at grid_size image_size)
                 (py_slice_to (grid_size.1 * grid_size.2) images) |}.

End Compositor.

(** ** The file system and the duplicate index *)

Module FS.

(** What [Image.open], [resize(image_size)] and the feature functions give for
    one file at the run's working resolution. *)
Record Decoded := mkDecoded {
  d_image : Image;
  d_dominant_color : Q * Q * Q;
  d_whiteness : Q;
  d_blackness : Q;
  d_hash : N
}.

(** A directory entry: a file (with [None] when opening, resizing or feature
    extraction raises for it) or a directory. *)
Inductive Node :=
| File (content : option Decoded)
| Dir (entries : list (string * Node)).

Definition Listing := list (string * Node).

(** The entry [name] of a directory. *)
Fixpoint child (d : Listing) (name : string) : option Node :=
  match d with
  | [] => None
  | (n, x) :: r => if bool_decide (n = name) then Some x else child r name
  end.

Definition is_dir (x : Node) : bool :=
  match x with Dir _ => true | File _ => false end.

Definition is_file (x : Node) : bool :=
  match x with File _ => true | Dir _ => false end.

(** [os.path.isdir(os.path.join(d, name))] and [os.path.isfile(...)]. *)
Definition isdir (d : Listing) (name : string) : bool :=
  match child d name with Some x => is_dir x | None => false end.

Definition isfile (d : Listing) (name : string) : bool :=
  match child d name with Some x => is_file x | None => false end.

(** [os.listdir(d)] *)
Definition listdir (d : Listing) : list string := d.*1.

Definition lower_ascii (c : ascii) : ascii :=
  let n := nat_of_ascii c in
  if ((65 <=? n) && (n <=? 90))%nat then ascii_of_nat (n + 32) else c.

(** [s.lower()] on ASCII names. *)
Fixpoint lower (s : string) : string :=
  match s with
  | EmptyString => EmptyString
  | String c r => String (lower_ascii c) (lower r)
  end.

(** [s.endswith(suffix)] *)
Definition endswith (s suffix : string) : bool :=
  let n := String.length s in
  let k := String.length suffix in
  (k <=? n)%nat && bool_decide (substring (n - k) k s = suffix).

(** [f.lower().endswith((".png", ".jpg", ".jpeg"))] *)
Definition recognized (f : string) : bool :=
  let l := lower f in
  endswith l ".png" || endswith l ".jpg" || endswith l ".jpeg".

(** [[f for f in os.listdir(p) if os.path.isfile(join(p, f)) and
    f.lower().endswith(...)]] *)
Definition image_files (d : Listing) : list string :=
  List.filter (λ f, isfile d f && recognized f) (listdir d).

(** [[x for x in os.listdir(p) if os.path.isdir(join(p, x))]] *)
Definition directories (d : Listing) : list string :=
  List.filter (λ f, isdir d f) (listdir d).

(** The opening, resizing and feature extraction of the [try] block. *)
Definition decode (d : Listing) (name : string) : option Decoded :=
  match child d name with
  | Some (File c) => c
  | _ => None
  end.

End FS.

Module Ledger.

(** A key of the [processed_images] dictionary.  [load_processed_images]
    inserts the cell [row[3]], a [str]; [process_category] inserts and looks up
    the object returned by [imagehash.phash], the one it turns into text with
    [str(perceptual_hash)] for the log.  Such an object hashes to a small
    integer computed from its bits and compares by its bit array: two of them
    with the same bits are one key, and none of them is the key that a [str]
    is. *)
Inductive Key :=
| KStr (s : string)
| KHash (h : N).

Global Instance Key_eq_dec : EqDecision Key.
Proof. solve_decision. Defined.

Global Instance Key_countable : Countable Key.
Proof.
  refine (inj_countable'
    (λ k, match k with KStr s => inl s | KHash h => inr h end)
    (λ x, match x with inl s => KStr s | inr h => KHash h end) _).
  by intros [].
Defined.

Definition hex_digit (n : N) : ascii :=
  match n with
  | 0 => "0" | 1 => "1" | 2 => "2" | 3 => "3" | 4 => "4" | 5 => "5"
  | 6 => "6" | 7 => "7" | 8 => "8" | 9 => "9" | 10 => "a" | 11 => "b"
  | 12 => "c" | 13 => "d" | 14 => "e" | _ => "f"
  end%N%char.

Fixpoint hex_go (k : nat) (n : N) (acc : string) : string :=
  match k with
  | O => acc
  | S k' => hex_go k' (n `div` 16)%N (String (hex_digit (n `mod` 16)%N) acc)
  end.

(** [str(perceptual_hash)]: the 64 bits as sixteen hexadecimal digits. *)
Definition str_of_hash (h : N) : string := hex_go 16 h "".

(** One tuple of [batch_log]:
    [(category, subcategory, batch_number, str(perceptual_hash), filename)]. *)
Record LogEntry := mkLogEntry {
  e_category : string;
  e_subcategory : string;
  e_batch_number : Z;
  e_hash : string;
  e_filename : string
}.

(** The CSV file: [None] while it does not exist, else its rows of cells. *)
Definition CsvFile := option (list (list string)).

Definition header : list string :=
  ["Category"; "Subcategory"; "Batch Number"; "Perceptual Hash";
   "Image Filename"].

Definition row_of_entry (e : LogEntry) : list string :=
  [e_category e; e_subcategory e; pretty (e_batch_number e); e_hash e;
   e_filename e].

Definition digit_value (c : ascii) : option Z :=
  let n := nat_of_ascii c in
  if ((48 <=? n) && (n <=? 57))%nat then Some (Z.of_nat (n - 48)) else None.

(** The digits of a numeral; one underscore may stand between two digits. *)
Fixpoint digits_value (s : string) (acc : Z) (after_digit : bool) : option Z :=
  match s with
  | EmptyString => if after_digit then Some acc else None
  | String c r =>
      match digit_value c with
      | Some d => digits_value r (10 * acc + d) true
      | None =>
          if bool_decide (c = "_"%char) && after_digit
          then digits_value r acc false
          else None
      end
  end.

Definition is_space (c : ascii) : bool :=
  let n := nat_of_ascii c in
  ((9 <=? n) && (n <=? 13) || (n =? 32) || (28 <=? n) && (n <=? 31))%nat.

Fixpoint lstrip (s : string) : string :=
  match s with
  | String c r => if is_space c then lstrip r else s
  | EmptyString => EmptyString
  end.

(** [s.strip()] on ASCII text. *)
Definition strip (s : string) : string :=
  String.rev (lstrip (String.rev (lstrip s))).

(** [int(cell)] on ASCII text: white space around an optionally signed decimal
    numeral; [None] stands for [ValueError]. *)
Definition py_int (s : string) : option Z :=
  match strip s with
  | EmptyString => None
  | String "-" r => Z.opp <$> digits_value r 0 false
  | String "+" r => digits_value r 0 false
  | r => digits_value r 0 false
  end.

(** The body of the [for row in reader] loop; [None] stands for the
    [IndexError] of [row[3]] or the [ValueError] of [int(row[2])]. *)
Definition load_row (row : list string) (m : gmap Key Z)
    : option (gmap Key Z) :=
  match row !! 3%nat with
  | None => None
  | Some perceptual_hash =>
      match row !! 2%nat with
      | None => None
      | Some cell =>
          match py_int cell with
          | None => None
          | Some batch_number => Some (<[KStr perceptual_hash := batch_number]> m)
          end
      end
  end.

Fixpoint load_rows (rows : list (list string)) (m : gmap Key Z)
    : option (gmap Key Z) :=
  match rows with
  | [] => Some m
  | row :: r =>
      match load_row row m with
      | Some m' => load_rows r m'
      | None => None
      end
  end.

(** [load_processed_images]: the header line is skipped with
    [next(reader, None)]. *)
Definition load_processed_images (file : CsvFile) : option (gmap Key Z) :=
  match file with
  | None => Some ∅
  | Some rows => load_rows (tail rows) ∅
  end.

(** [write_log_to_csv]: the file after the call. *)
Definition write_log_to_csv (file : CsvFile) (log_entries : list LogEntry)
    : list (list string) :=
  match file with
  | Some rows => rows ++ (row_of_entry <$> log_entries)
  | None => header :: (row_of_entry <$> log_entries)
  end.

End Ledger.

(** ** Orchestrator *)

Module Pipeline.
Import FS Ledger Compositor.

(** The two scripts differ in the grouper and in the DDS export. *)
Inductive Version := V31 | V32.

(** What the run does to the outside world. A path is the list of its
    components below [input_dir]. *)
Inductive Event :=
| EvListdir (path : list string)
| EvOpen (path : list string)
| EvSave (name : string) (canvas : Canvas)
| EvDds (png_name dds_name : string)
| EvWriteLog (rows : list (list string)).

(** A value stored in [category_summaries[category]]: a counter, the list of
    duplicate file names, or the dictionary of one subcategory. *)
Inductive SVal :=
| VInt (n : Z)
| VList (l : list string)
| VDict (d : gmap string Z).

(** The objects shared through the run and the local variables of
    [process_category]. *)
Record State := mkState {
  processed_images : gmap Key Z;
  log_entries : list LogEntry;
  category_summaries : gmap string (gmap string SVal);
  trace : list Event;
  available_images : list string;
  processed_in_category : Z;
  checked_in_category : Z;
  duplicates_in_category : Z;
  stitched_in_category : Z;
  batch_number : Z;
  batch_log : list LogEntry;
  images : list ImageRecord
}.

Definition set_processed_images v (s : State) : State :=
  mkState v (log_entries s) (category_summaries s) (trace s)
    (available_images s) (processed_in_category s) (checked_in_category s)
    (duplicates_in_category s) (stitched_in_category s) (batch_number s)
    (batch_log s) (images s).
Definition set_log_entries v (s : State) : State :=
  mkState (processed_images s) v (category_summaries s) (trace s)
    (available_images s) (processed_in_category s) (checked_in_category s)
    (duplicates_in_category s) (stitched_in_category s) (batch_number s)
    (batch_log s) (images s).
Definition set_category_summaries v (s : State) : State :=
  mkState (processed_images s) (log_entries s) v (trace s)
    (available_images s) (processed_in_category s) (checked_in_category s)
    (duplicates_in_category s) (stitched_in_category s) (batch_number s)
    (batch_log s) (images s).
Definition set_trace v (s : State) : State :=
  mkState (processed_images s) (log_entries s) (category_summaries s) v
    (available_images s) (processed_in_category s) (checked_in_category s)
    (duplicates_in_category s) (stitched_in_category s) (batch_number s)
    (batch_log s) (images s).
Definition set_available_images v (s : State) : State :=
  mkState (processed_images s) (log_entries s) (category_summaries s) (trace s)
    v (processed_in_category s) (checked_in_category s)
    (duplicates_in_category s) (stitched_in_category s) (batch_number s)
    (batch_log s) (images s).
Definition set_processed_in_category v (s : State) : State :=
  mkState (processed_images s) (log_entries s) (category_summaries s) (trace s)
    (available_images s) v (checked_in_category s)
    (duplicates_in_category s) (stitched_in_category s) (batch_number s)
    (batch_log s) (images s).
Definition set_checked_in_category v (s : State) : State :=
  mkState (processed_images s) (log_entries s) (category_summaries s) (trace s)
    (available_images s) (processed_in_category s) v
    (duplicates_in_category s) (stitched_in_category s) (batch_number s)
    (batch_log s) (images s).
Definition set_duplicates_in_category v (s : State) : State :=
  mkState (processed_images s) (log_entries s) (category_summaries s) (trace s)
    (available_images s) (processed_in_category s) (checked_in_category s)
    v (stitched_in_category s) (batch_number s)
    (batch_log s) (images s).
Definition set_stitched_in_category v (s : State) : State :=
  mkState (processed_images s) (log_entries s) (category_summaries s) (trace s)
    (available_images s) (processed_in_category s) (checked_in_category s)
    (duplicates_in_category s) v (batch_number s)
    (batch_log s) (images s).
Definition set_batch_number v (s : State) : State :=
  mkState (processed_images s) (log_entries s) (category_summaries s) (trace s)
    (available_images s) (processed_in_category s) (checked_in_category s)
    (duplicates_in_category s) (stitched_in_category s) v
    (batch_log s) (images s).
Definition set_batch_log v (s : State) : State :=
  mkState (processed_images s) (log_entries s) (category_summaries s) (trace s)
    (available_images s) (processed_in_category s) (checked_in_category s)
    (duplicates_in_category s) (stitched_in_category s) (batch_number s)
    v (images s).
Definition set_images v (s : State) : State :=
  mkState (processed_images s) (log_entries s) (category_summaries s) (trace s)
    (available_images s) (processed_in_category s) (checked_in_category s)
    (duplicates_in_category s) (stitched_in_category s) (batch_number s)
    (batch_log s) v.

(** An effect on the outside world is put at the end of the trace. *)
Definition emit (e : Event) (s : State) : State :=
  set_trace (trace s ++ [e]) s.

(** How a loop body or a function ends: normally, or with an exception that
    nothing below [stitch_images] catches. The state reached is kept. *)
Inductive Outcome :=
| Returned (s : State)
| Raised (s : State).

Definition state_of (o : Outcome) : State :=
  match o with Returned s | Raised s => s end.

(** How one turn of the outer [while] loop ends. *)
Inductive Flow :=
| Continue (s : State)
| Break (s : State)
| Raise (s : State).

(** [category_summaries[category][key] += n]; [None] stands for the
    [KeyError] or [TypeError] of the statement. *)
Definition add_counter (category key : string) (n : Z)
    (cs : gmap string (gmap string SVal)) : option (gmap string (gmap string SVal)) :=
  match cs !! category with
  | None => None
  | Some d =>
      match d !! key with
      | Some (VInt k) => Some (<[category := <[key := VInt (k + n)]> d]> cs)
      | _ => None
      end
  end.

(** [category_summaries[category]["Duplicate files"].append(filename)];
    [None] stands for the [KeyError] or [AttributeError] of the statement. *)
Definition append_duplicate (category filename : string)
    (cs : gmap string (gmap string SVal)) : option (gmap string (gmap string SVal)) :=
  match cs !! category with
  | None => None
  | Some d =>
      match d !! "Duplicate files" with
      | Some (VList l) =>
          Some (<[category := <["Duplicate files" := VList (l ++ [filename])]> d]> cs)
      | _ => None
      end
  end.

(** [category_summaries[category][subcategory] = {...}] *)
Definition set_subcategory (category subcategory : string) (v : gmap string Z)
    (cs : gmap string (gmap string SVal)) : option (gmap string (gmap string SVal)) :=
  match cs !! category with
  | None => None
  | Some d => Some (<[category := <[subcategory := VDict v]> d]> cs)
  end.

(** The counters [process_category] stores for a category at its start. *)
Definition initial_summary : gmap string SVal :=
  <["Images in folder" := VInt 0]> (<["Checked" := VInt 0]>
  (<["Duplicates found" := VInt 0]> (<["Processed" := VInt 0]>
  (<["Stitched batches" := VInt 0]> (<["Duplicate files" := VList []]> ∅))))).

Definition stitched_image_name (category subcategory : string) (n : Z) : string :=
  category +:+ "-" +:+ subcategory +:+ "-" +:+ pretty n +:+ ".png".

Definition dds_image_name (category subcategory : string) (n : Z) : string :=
  category +:+ "-" +:+ subcategory +:+ "-" +:+ pretty n +:+ ".dds".

Definition group (v : Version) (l : list ImageRecord) : list ImageRecord :=
  match v with
  | V31 => Grouper.group_images_by_blackness_whiteness_and_color_v31 l
  | V32 => Grouper.group_images_by_blackness_whiteness_and_color l
  end.

Section subcategory.
Context (version : Version) (grid_size image_size : Z * Z).
Context (category subcategory : string).
(** [subcategory_path] and the directory found there. *)
Context (subcategory_path : list string) (dir : Listing).

Definition capacity : Z := grid_size.1 * grid_size.2.

Definition record_of (d : Decoded) (filename : string) : ImageRecord :=
  mkImageRecord (d_image d) (d_dominant_color d) (d_whiteness d)
    (d_blackness d) filename.

(** The body of the inner [while] loop after
    [filename = available_images.pop(0)]. *)
Definition check_one (filename : string) (s : State) : State :=
  let s := set_checked_in_category (checked_in_category s + 1) s in
  let s := emit (EvOpen (subcategory_path ++ [filename])) s in
  match decode dir filename with
  | None => s
  | Some d =>
      let perceptual_hash := d_hash d in
      if bool_decide (is_Some (processed_images s !! KHash perceptual_hash)) then
        let s := set_duplicates_in_category (duplicates_in_category s + 1) s in
        match append_duplicate category filename (category_summaries s) with
        | Some cs => set_category_summaries cs s
        | None => s
        end
      else
        let s := set_images (images s ++ [record_of d filename]) s in
        let s := set_batch_log
                   (batch_log s ++
                      [mkLogEntry category subcategory (batch_number s)
                         (str_of_hash perceptual_hash) filename]) s in
        set_processed_images
          (<[KHash perceptual_hash := batch_number s]> (processed_images s)) s
  end.

(** [while len(images) < grid_size[0] * grid_size[1] and available_images:],
    run on [available_images = avail]. *)
Fixpoint collect (avail : list string) (s : State) : State :=
  match avail with
  | [] => set_available_images [] s
  | filename :: rest =>
      if Z.of_nat (length (images s)) <? capacity
      then collect rest (check_one filename (set_available_images rest s))
      else set_available_images avail s
  end.

(** [Image.new] refuses a negative width or height with a [ValueError]. *)
Definition canvas_refused : bool :=
  (grid_size.2 * image_size.1 <? 0) || (grid_size.1 * image_size.2 <? 0).

(** The stitching, saving and bookkeeping of a full batch. *)
Definition render (s : State) : Flow :=
  if canvas_refused then Raise s else
  let stitched_image := stitch grid_size image_size (images s) in
  let stitched_image_name :=
    stitched_image_name category subcategory (batch_number s) in
  let s := emit (EvSave stitched_image_name stitched_image) s in
  let s := match version with
           | V31 => s
           | V32 => emit (EvDds stitched_image_name
                            (dds_image_name category subcategory (batch_number s))) s
           end in
  let s := set_log_entries (log_entries s ++ batch_log s) s in
  match add_counter category "Stitched batches" 1 (category_summaries s) with
  | None => Raise s
  | Some cs =>
      let s := set_category_summaries cs s in
      let s := set_processed_in_category
                 (processed_in_category s + Z.of_nat (length (images s))) s in
      let s := set_stitched_in_category (stitched_in_category s + 1) s in
      Continue (set_batch_number (batch_number s + 1) s)
  end.

(** One turn of [while available_images:]. *)
Definition cycle (s : State) : Flow :=
  let s := set_batch_log [] s in
  let s := set_images [] s in
  let s := collect (available_images s) s in
  match images s with
  | [] => Break s
  | _ =>
      let s := set_images (group version (images s)) s in
      if Z.of_nat (length (images s)) <? capacity then Continue s
      else render s
  end.

(** [while available_images:]; [None] when the turns allowed are used up. *)
Fixpoint cycles (fuel : nat) (s : State) : option Outcome :=
  match available_images s with
  | [] => Some (Returned s)
  | _ =>
      match fuel with
      | O => None
      | S n =>
          match cycle s with
          | Continue s' => cycles n s'
          | Break s' => Some (Returned s')
          | Raise s' => Some (Raised s')
          end
      end
  end.
End subcategory.

(** A statement on [category_summaries] that may raise, followed by the rest. *)
Definition try_summaries
    (f : gmap string (gmap string SVal) → option (gmap string (gmap string SVal)))
    (s : State) (k : State → option Outcome) : option Outcome :=
  match f (category_summaries s) with
  | None => Some (Raised s)
  | Some cs => k (set_category_summaries cs s)
  end.

Section category.
Context (version : Version) (grid_size image_size : Z * Z).
Context (category : string).
(** The directory found at [category_path]. *)
Context (entries : Listing).

(** [subcategory_path] *)
Definition subcategory_path_of (subcategory : string) : list string :=
  if bool_decide (subcategory = "main") then [category]
  else [category; subcategory].

(** The directory at [subcategory_path]; [None] when there is none. *)
Definition subcategory_dir (subcategory : string) : option Listing :=
  if bool_decide (subcategory = "main") then Some entries
  else match child entries subcategory with
       | Some (Dir l) => Some l
       | _ => None
       end.

(** The dictionary stored under [category_summaries[category][subcategory]]
    once the [while] loop is over. *)
Definition subcategory_summary (s : State) : gmap string Z :=
  <["Images in folder" := Z.of_nat (length (available_images s))]>
  (<["Checked" := checked_in_category s]>
  (<["Duplicates found" := duplicates_in_category s]>
  (<["Processed" := processed_in_category s]>
  (<["Stitched batches" := stitched_in_category s]> ∅)))).

(** The body of [for subcategory in subcategories:]. *)
Definition process_subcategory (subcategory : string) (s : State)
    : option Outcome :=
  let subcategory_path := subcategory_path_of subcategory in
  match subcategory_dir subcategory with
  | None => Some (Raised s)
  | Some dir =>
      let s := emit (EvListdir subcategory_path) s in
      let s := set_available_images (image_files dir) s in
      match available_images s with
      | [] => Some (Returned s)
      | _ =>
          try_summaries
            (add_counter category "Images in folder"
               (Z.of_nat (length (available_images s)))) s (λ s,
          let s := set_processed_in_category 0 s in
          let s := set_checked_in_category 0 s in
          let s := set_duplicates_in_category 0 s in
          let s := set_stitched_in_category 0 s in
          let s := set_batch_number 1 s in
          match cycles version grid_size image_size category subcategory
                  subcategory_path dir
                  (S (length (available_images s))) s with
          | None => None
          | Some (Raised s) => Some (Raised s)
          | Some (Returned s) =>
              try_summaries
                (add_counter category "Checked" (checked_in_category s)) s (λ s,
              try_summaries
                (add_counter category "Duplicates found"
                   (duplicates_in_category s)) s (λ s,
              try_summaries
                (add_counter category "Processed"
                   (processed_in_category s)) s (λ s,
              try_summaries
                (set_subcategory category subcategory
                   (subcategory_summary s)) s (λ s,
              Some (Returned s)))))
          end)
      end
  end.

Fixpoint for_subcategories (subcategories : list string) (s : State)
    : option Outcome :=
  match subcategories with
  | [] => Some (Returned s)
  | subcategory :: rest =>
      match process_subcategory subcategory s with
      | Some (Returned s') => for_subcategories rest s'
      | o => o
      end
  end.

(** The subcategories [process_category] walks through. *)
Definition subcategories_of : list string :=
  let subcategories := directories entries in
  if existsb (λ subcategory, bool_decide (subcategory = "main")) subcategories
  then subcategories
  else subcategories ++ ["main"].
End category.

(** [process_category] *)
Definition process_category (version : Version) (input_dir : Listing)
    (grid_size image_size : Z * Z) (category : string) (s : State)
    : option Outcome :=
  match child input_dir category with
  | Some (Dir entries) =>
      let s := emit (EvListdir [category]) s in
      let subcategories := subcategories_of entries in
      let s := set_category_summaries
                 (<[category := initial_summary]> (category_summaries s)) s in
      for_subcategories version grid_size image_size category entries subcategories s
  | _ => Some (Returned s)
  end.

Fixpoint for_categories (version : Version) (input_dir : Listing)
    (grid_size image_size : Z * Z) (categories : list string) (s : State)
    : option Outcome :=
  match categories with
  | [] => Some (Returned s)
  | category :: rest =>
      match process_category version input_dir grid_size image_size category s with
      | Some (Returned s') =>
          for_categories version input_dir grid_size image_size rest s'
      | o => o
      end
  end.

(** The state [stitch_images] starts from. *)
Definition initial_state (processed : gmap Key Z) : State :=
  mkState processed [] ∅ [] [] 0 0 0 0 1 [] [].

(** What a run leaves behind: the last state, the CSV file, and whether the
    [try] block of [stitch_images] ran to its end. *)
Record RunResult := mkRunResult {
  final : State;
  ledger : CsvFile;
  finished : bool
}.

(** The rows one call of [write_log_to_csv] puts into the file. *)
Definition rows_written (file : CsvFile) (log_entries : list LogEntry)
    : list (list string) :=
  match file with
  | Some _ => row_of_entry <$> log_entries
  | None => header :: (row_of_entry <$> log_entries)
  end.

(** [stitch_images]; [None] only when a loop used up its turns. *)
Definition stitch_images (version : Version) (input_dir : Listing)
    (log_csv : CsvFile) (grid_size image_size : Z * Z) : option RunResult :=
  match load_processed_images log_csv with
  | None => Some (mkRunResult (initial_state ∅) log_csv false)
  | Some processed =>
      let s := emit (EvListdir []) (initial_state processed) in
      let categories := directories input_dir in
      match for_categories version input_dir grid_size image_size categories s with
      | None => None
      | Some (Raised s) => Some (mkRunResult s log_csv false)
      | Some (Returned s) =>
          let s' := emit (EvWriteLog (rows_written log_csv (log_entries s))) s in
          Some (mkRunResult s' (Some (write_log_to_csv log_csv (log_entries s))) true)
      end
  end.

(** *** Reading a trace *)

Definition saved (t : list Event) : list (string * Canvas) :=
  omap (λ e, match e with EvSave n c => Some (n, c) | _ => None end) t.

Definition opened (t : list Event) : list (list string) :=
  omap (λ e, match e with EvOpen p => Some p | _ => None end) t.

Definition listed (t : list Event) : list (list string) :=
  omap (λ e, match e with EvListdir p => Some p | _ => None end) t.

Definition log_writes (t : list Event) : list (list (list string)) :=
  omap (λ e, match e with EvWriteLog r => Some r | _ => None end) t.

(** *** Reading the summary *)

(** [category_summaries[category][key]] *)
Definition category_value (cs : gmap string (gmap string SVal))
    (category key : string) : option SVal :=
  d ← cs !! category; d !! key.

(** [category_summaries[category][subcategory][key]] *)
Definition subcategory_counter (cs : gmap string (gmap string SVal))
    (category subcategory key : string) : option Z :=
  v ← category_value cs category subcategory;
  match v with VDict m => m !! key | _ => None end.

Definition state_of_flow (f : Flow) : State :=
  match f with Continue s | Break s | Raise s => s end.

(** The [Image.open] calls for the files [l] of the directory [path]. *)
Definition opens (path : list string) (l : list string) : list Event :=
  (λ f, EvOpen (path ++ [f])) <$> l.

(** The event lists the directory [root] or one below it, or opens a file
    below [root]. *)
Definition under (root : list string) (e : Event) : bool :=
  match e with
  | EvListdir p => bool_decide (take (length root) p = root)
  | EvOpen p =>
      bool_decide (take (length root) p = root)
      && bool_decide (length root < length p)%nat
  | _ => false
  end.

(** The names of the grids numbered [first], [first + 1], ... ([n] of them). *)
Definition batch_names (category subcategory : string) (first : Z) (n : nat)
    : list string :=
  stitched_image_name category subcategory <$> seqZ first (Z.of_nat n).

(** The events of the DDS export of one grid. *)
Definition dds_events (version : Version) (category subcategory : string)
    (n : Z) : list Event :=
  match version with
  | V31 => []
  | V32 => [EvDds (stitched_image_name category subcategory n)
              (dds_image_name category subcategory n)]
  end.

End Pipeline.

(** ** The orders the grouper is specified by *)

(** These relations follow the words of the specification (and of the
    comments of the code); the facts below compare them with the comparators
    taken from the code. *)
Module Order.
Import Grouper.




End Order.

(** ** Concrete pools, directory trees and ledgers *)

Module Examples.
Import FS Ledger Compositor Pipeline.

Definition gray : Q * Q * Q := (128%Q, 128%Q, 128%Q).

(** Two records with the same features under different names. *)
Definition rec_b : ImageRecord := mkImageRecord (Pixels 1) gray (1 # 4) (1 # 2) "b.png".
Definition rec_a : ImageRecord := mkImageRecord (Pixels 2) gray (1 # 4) (1 # 2) "a.png".

(** Records that differ in blackness. *)
Definition rec_dark : ImageRecord := mkImageRecord (Pixels 3) gray (1 # 4) (3 # 4) "dark.png".
Definition rec_light : ImageRecord := mkImageRecord (Pixels 4) gray (1 # 4) (1 # 8) "light.png".

Definition decoded (id : N) (w b : Q) (h : N) : option Decoded :=
  Some (mkDecoded (Pixels id) gray w b h).

(** The directory of the category of [gallery]. *)
Definition gallery_cat : Listing :=
  [("a.png", File (decoded 1 0 0 5));
   ("b.PNG", File (decoded 2 0 0 6));
   ("notes.txt", File None);
   ("bad.jpg", File None);
   ("main", Dir [("m.png", File (decoded 3 0 0 7))]);
   ("sub", Dir [("s.png", File (decoded 4 0 0 5));
                ("t.jpeg", File (decoded 5 0 0 8))])].

(** A category holding two good pictures, a text file and a broken picture,
    a real directory named main, and one more subdirectory. *)
Definition gallery : Listing := [("Cat", Dir gallery_cat)].

(** A category with one picture only. *)
Definition single_cat : Listing := [("a.png", File (decoded 1 0 0 5))].
Definition single : Listing := [("Cat", Dir single_cat)].

(** A category with two different pictures. *)
Definition pair_cat : Listing :=
  [("a.png", File (decoded 1 0 0 5)); ("b.png", File (decoded 2 0 0 6))].

(** The ledger a run over [single] with a 1 x 1 grid writes. *)
Definition single_ledger : CsvFile :=
  Some [header; ["Cat"; "main"; "1"; "0000000000000005"; "a.png"]].

(** A state in the middle of a subcategory. *)
Definition midway : State :=
  mkState ∅ [] {["Cat" := initial_summary]} [] ["a.png"] 0 0 0 0 1 [] [].

End Examples.

(** ** The other scripts of the repository *)

(** *** Convert to DDS *)

Module Converter.
Import FS.

(** [s.replace(old, new)] for a non-empty [old]: the occurrences of [old] are
    taken from the left and do not overlap.  [skip] counts the characters of
    the occurrence just replaced that are still to be passed over. *)
Fixpoint replace_from (old new : string) (skip : nat) (s : string) : string :=
  match s with
  | EmptyString => EmptyString
  | String c r =>
      match skip with
      | S k => replace_from old new k r
      | O =>
          if String.prefix old s
          then new +:+ replace_from old new (String.length old - 1) r
          else String c (replace_from old new 0 r)
      end
  end.

Definition replace (old new s : string) : string := replace_from old new 0 s.

(** [sub in s] *)
Fixpoint contains (sub s : string) : bool :=
  String.prefix sub s
  || match s with
     | EmptyString => false
     | String _ r => contains sub r
     end.

(** How [start_conversion] ends: with one of its message boxes. *)
Inductive Message :=
| MissingDependencies
| InputDirectoryMissing
| NoFiles
| Summary (successful_conversions total_files : Z).

(** [[f for f in os.listdir(input_dir) if f.lower().endswith('.png')]] *)
Definition png_files (d : Listing) : list string :=
  List.filter (λ f, endswith (lower f) ".png") (listdir d).

(** The file name in [output_path]. *)
Definition output_name (png_file : string) : string :=
  replace ".png" ".dds" png_file.

(** [convert_png_to_dds]: [False] when [Image.open] raises; pydds is taken to
    convert and save what opens. *)
Definition convert_png_to_dds (d : Listing) (png_file : string) : bool :=
  bool_decide (is_Some (decode d png_file)).

(** The [for] loop of [start_conversion]: the counter, and the conversions
    that succeeded as pairs of the input and the output file name. *)
Fixpoint convert_all (d : Listing) (png_files : list string)
    (successful_conversions : Z) (written : list (string * string))
    : Z * list (string * string) :=
  match png_files with
  | [] => (successful_conversions, written)
  | png_file :: rest =>
      if convert_png_to_dds d png_file
      then convert_all d rest (successful_conversions + 1)
             (written ++ [(png_file, output_name png_file)])
      else convert_all d rest successful_conversions written
  end.

(** [start_conversion], without the progress label: the message box shown and
    the files written.  [dependencies] is the result of [check_dependencies];
    [input_dir] is [None] when the directory does not exist. *)
Definition start_conversion (dependencies : bool) (input_dir : option Listing)
    : Message * list (string * string) :=
  if negb dependencies then (MissingDependencies, [])
  else
    match input_dir with
    | None => (InputDirectoryMissing, [])
    | Some d =>
        match png_files d with
        | [] => (NoFiles, [])
        | files =>
            let '(successful_conversions, written) := convert_all d files 0 [] in
            (Summary successful_conversions (Z.of_nat (length files)), written)
        end
    end.

End Converter.

(** *** Border detection, analysis and cropping *)

(** The scripts "Image AnalysisScript", "Image Processing - Including Aspect
    Ratios", "Image Processing - Testing for aspect ratio" and "Image
    Processing".  An array is its shape and a function from indices to
    samples.  Aspect ratios and the thresholds 0.05 and 0.95 are exact
    rationals; the two aspect ratios that [analyze_image] rounds for its
    report are left out of the description. *)

Module Borders.

(** [np.array(image)]: the shape and the samples of a picture.  A picture
    with one band gives an array of two axes, [item row col]; one with several
    bands an array of three, [item row col band]. *)
Inductive NdArray :=
| Array2 (height width : nat) (item : nat → nat → Z)
| Array3 (height width depth : nat) (item : nat → nat → nat → Z).

(** What [Image.open] gives. *)
Record Picture := mkPicture {
  mode : string;
  pixels : NdArray
}.

(** [image.size], as [(width, height)]. *)
Definition size (a : NdArray) : Z * Z :=
  match a with
  | Array2 h w _ => (Z.of_nat w, Z.of_nat h)
  | Array3 h w _ _ => (Z.of_nat w, Z.of_nat h)
  end.

(** [if image.mode == 'RGBA': image = image.convert('RGB')], which drops the
    fourth band. *)
Definition convert_rgb (p : Picture) : NdArray :=
  if bool_decide (mode p = "RGBA") then
    match pixels p with
    | Array3 h w _ item => Array3 h w 3 item
    | a => a
    end
  else pixels p.

(** [for i in range(start, start + n): if bright(i): break; edge = i + 1],
    entered with [edge = start]. *)
Fixpoint leading (bright : nat → bool) (n start : nat) : nat :=
  match n with
  | O => start
  | S n' => if bright start then start else leading bright n' (S start)
  end.

(** [for i in range(n - 1, -1, -1): if bright(i): break; edge = i],
    entered with [edge = n]. *)
Fixpoint trailing (bright : nat → bool) (n : nat) : nat :=
  match n with
  | O => O
  | S i => if bright i then S i else trailing bright i
  end.

Section detect.
Context (height width depth : nat) (item : nat → nat → nat → Z).
Context (tolerance : Z).

(** [np.any(image_np[row, :, :] > tolerance)] *)
Definition row_bright (row : nat) : bool :=
  existsb (λ col, existsb (λ band, tolerance <? item row col band) (seq 0 depth))
    (seq 0 width).

(** [np.any(image_np[:, col, :] > tolerance)] *)
Definition col_bright (col : nat) : bool :=
  existsb (λ row, existsb (λ band, tolerance <? item row col band) (seq 0 depth))
    (seq 0 height).

(** [np.all(image_np > tolerance, axis=-1)] at [row], [col]. *)
Definition mask (row col : nat) : bool :=
  forallb (λ band, tolerance <? item row col band) (seq 0 depth).

(** [np.argwhere(mask)]: the positions where the mask holds, row by row. *)
Definition argwhere : list (nat * nat) :=
  row ← seq 0 height;
  List.filter (λ rc, mask rc.1 rc.2) ((λ col, (row, col)) <$> seq 0 width).
End detect.

(** [detect_borders], as [(left, top, right, bottom)]; [None] stands for the
    [ValueError] of unpacking the shape of an array of two axes. *)
Definition detect_borders (image_np : NdArray) (tolerance : Z)
    : option (Z * Z * Z * Z) :=
  match image_np with
  | Array2 _ _ _ => None
  | Array3 height width depth item =>
      let top := leading (row_bright width depth item tolerance) height 0 in
      let bottom := trailing (row_bright width depth item tolerance) height in
      let left := leading (col_bright height depth item tolerance) width 0 in
      let right := trailing (col_bright height depth item tolerance) width in
      Some (Z.of_nat left, Z.of_nat top, Z.of_nat right, Z.of_nat bottom)
  end.

Definition Qgtb (x y : Q) : bool :=
  match (x ?= y)%Q with Gt => true | _ => false end.

Definition Qltb (x y : Q) : bool :=
  match (x ?= y)%Q with Lt => true | _ => false end.

(** The description [analyze_image] returns, without its two rounded aspect
    ratios. *)
Record Description := mkDescription {
  d_filename : string;
  original_dimensions : Z * Z;
  bounding_box : Z * Z * Z * Z;
  bounding_box_dimensions : Z * Z;
  has_significant_borders : bool;
  category : string
}.

(** [analyze_image]; [opened] is [None] when [Image.open] raises.  [None]
    stands for the [None] returned from the [except] clause: a division by
    zero or the [ValueError] of [detect_borders]. *)
Definition analyze_image (filename : string) (opened : option Picture)
    : option Description :=
  match opened with
  | None => None
  | Some p =>
      let image := convert_rgb p in
      let '(original_width, original_height) := size image in
      if bool_decide (original_height = 0) then None
      else
        match detect_borders image 5 with
        | None => None
        | Some (left_, top, right_, bottom) =>
            let bbox_width := right_ - left_ in
            let bbox_height := bottom - top in
            if bool_decide (bbox_height = 0) then None
            else
              let bbox_aspect_ratio :=
                (inject_Z bbox_width / inject_Z bbox_height)%Q in
              let border_threshold := (5 # 100)%Q in
              let has_significant_borders :=
                Qltb (inject_Z bbox_width)
                  (inject_Z original_width * (1 - border_threshold))
                || Qltb (inject_Z bbox_height)
                     (inject_Z original_height * (1 - border_threshold)) in
              let category :=
                if Qgtb bbox_aspect_ratio 2 then "extra_wide"
                else if Qgtb bbox_aspect_ratio 1 then "landscape"
                else if Qltb bbox_aspect_ratio (1 # 2) then "extra_tall"
                else "portrait" in
              Some (mkDescription filename (original_width, original_height)
                      (left_, top, right_, bottom) (bbox_width, bbox_height)
                      has_significant_borders category)
        end
  end.

(** The dictionary [categories] of [categorize_image], in the order of its
    keys. *)
Definition categories : list (string * Q) :=
  [("extra_tall", 6 # 10); ("portrait", 9 # 10); ("square", 1);
   ("landscape", 175 # 100); ("extra_wide", 225 # 100)]%Q.

(** [min(keys, key=f)] entered with the best key so far: the first key with
    the least value of [f] wins. *)
Fixpoint py_min_by (f : Q → Q) (best : string * Q) (l : list (string * Q))
    : string :=
  match l with
  | [] => best.1
  | x :: r =>
      if Qltb (f x.2) (f best.2) then py_min_by f x r else py_min_by f best r
  end.

(** [categorize_image] on [cropped_image.size]; [None] stands for the
    [ZeroDivisionError] of the aspect ratio. *)
Definition categorize_image (size : Z * Z) : option string :=
  let '(width, height) := size in
  if bool_decide (height = 0) then None
  else
    let aspect_ratio := (inject_Z width / inject_Z height)%Q in
    match categories with
    | [] => None
    | first :: rest =>
        Some (py_min_by (λ midpoint, Qabs (aspect_ratio - midpoint)) first rest)
    end.

(** [coords.min(axis=0)] and [coords.max(axis=0) + 1] of the resizing
    scripts, as [(x0, y0, x1, y1)]: [x] runs over the first axis of the
    array. *)
Definition bounds (coords : list (nat * nat)) : Z * Z * Z * Z :=
  let rows := (λ rc, Z.of_nat rc.1) <$> coords in
  let cols := (λ rc, Z.of_nat rc.2) <$> coords in
  (foldr Z.min (hd 0 rows) rows, foldr Z.min (hd 0 cols) cols,
   foldr Z.max (hd 0 rows) rows + 1, foldr Z.max (hd 0 cols) cols + 1).

(** What is resized: the picture as it is, or [image.crop(box)]. *)
Inductive Cropped :=
| Whole
| Crop (box : Z * Z * Z * Z).

(** The first half of [remove_black_borders_and_resize]: the choice of
    [cropped_image].  [None] stands for the [False] returned when no sample
    passes the mask, and for the one returned from the [except] clause when
    the coordinates of an array of two axes are unpacked. *)
Definition cropped_image (image_np : NdArray) (tolerance : Z)
    : option Cropped :=
  match image_np with
  | Array2 _ _ _ => None
  | Array3 height width depth item =>
      let '(img_width, img_height) := size image_np in
      let coords := argwhere height width depth item tolerance in
      match coords with
      | [] => None
      | _ =>
          let '(x0, y0, x1, y1) := bounds coords in
          let bbox_width := x1 - x0 in
          let bbox_height := y1 - y0 in
          if negb (Qltb (inject_Z bbox_width) (inject_Z img_width * (95 # 100)))
             && negb (Qltb (inject_Z bbox_height)
                        (inject_Z img_height * (95 # 100)))
          then Some Whole
          else Some (Crop (y0, x0, y1, x1))
      end
  end.

(** [coords.size != 0] for [coords = np.argwhere(np.all(a > tolerance,
    axis=-1))]: on an array of two axes the last axis is the one of the
    columns, and the mask has one entry for each row. *)
Definition content_found (a : NdArray) (tolerance : Z) : bool :=
  match a with
  | Array2 height width item =>
      existsb (λ row, forallb (λ col, tolerance <? item row col) (seq 0 width))
        (seq 0 height)
  | Array3 height width depth item =>
      match argwhere height width depth item tolerance with
      | [] => false
      | _ => true
      end
  end.

(** What [remove_black_borders_and_resize] does to the files. *)
Inductive Effect :=
| Save (output_path : string)
| Remove (image_path : string).

(** [remove_black_borders_and_resize]: the value returned and the files
    touched.  [opened] is [None] when [Image.open] raises; [resized] gives the
    array of [cropped_image.resize(size, LANCZOS)]; saving and removing are
    taken to succeed. *)
Definition remove_black_borders_and_resize (image_path output_path : string)
    (opened : option Picture) (resized : Cropped → NdArray) (tolerance : Z)
    : bool * list Effect :=
  match opened with
  | None => (false, [])
  | Some p =>
      match cropped_image (convert_rgb p) tolerance with
      | None => (false, [])
      | Some c =>
          if content_found (resized c) tolerance
          then (true, [Save output_path; Remove image_path])
          else (false, [])
      end
  end.

End Borders.

(** *** The part of the index that a run can find *)

Module Index.
Import Ledger Pipeline.

Definition is_hash (k : Key) : bool :=
  match k with KHash _ => true | KStr _ => false end.

(** The entries of the index under hash objects: the ones that the lookup
    [perceptual_hash in processed_images] can find. *)
Definition hash_keys (m : gmap Key Z) : gmap Key Z :=
  filter (λ kv, is_hash kv.1 = true) m.




End Index.

(** *** The worker functions of V3.2 *)

Module Workers.
Import FS Ledger Pipeline.

(** [process_image]: the triple [(result, filename, is_duplicate)].  The
    directory gives what opening, resizing, [preprocess_image] and the
    feature functions give for a file. *)
Definition process_image (dir : Listing) (processed_images : gmap Key Z)
    (filename : string) : option ImageRecord * string * bool :=
  match decode dir filename with
  | None => (None, filename, false)
  | Some d =>
      let perceptual_hash := d_hash d in
      if bool_decide (is_Some (processed_images !! KHash perceptual_hash))
      then (None, filename, true)
      else (Some (record_of d filename), filename, false)
  end.

(** The loop over [as_completed(futures)]; [completed] lists the file names
    in the order in which their futures complete. *)
Fixpoint gather (dir : Listing) (processed_images : gmap Key Z)
    (completed : list string) (images : list ImageRecord)
    (duplicates : list string) : list ImageRecord * list string :=
  match completed with
  | [] => (images, duplicates)
  | name :: rest =>
      let '(result, filename, is_duplicate) :=
        process_image dir processed_images name in
      if is_duplicate
      then gather dir processed_images rest images (duplicates ++ [filename])
      else
        match result with
        | Some r => gather dir processed_images rest (images ++ [r]) duplicates
        | None => gather dir processed_images rest images duplicates
        end
  end.

(** [process_images_in_parallel], as [(images, duplicates)]. *)
Definition process_images_in_parallel (dir : Listing)
    (processed_images : gmap Key Z) (completed : list string)
    : list ImageRecord * list string :=
  gather dir processed_images completed [] [].

End Workers.

(** ** Concrete pictures *)

Module Pictures.
Import Borders.

(** Four rows of five pixels: a bright block of two rows and three columns
    inside a black frame one pixel wide. *)
Definition framed_item (row col band : nat) : Z :=
  if ((1 <=? row) && (row <=? 2) && (1 <=? col) && (col <=? 3))%nat
  then 200 else 0.
Definition framed : NdArray := Array3 4 5 3 framed_item.

(** A black picture, two rows of three pixels. *)
Definition black_item (row col band : nat) : Z := 0.
Definition black : NdArray := Array3 2 3 3 black_item.

(** A picture of pure red, two rows of two pixels. *)
Definition red_item (row col band : nat) : Z :=
  if (band =? 0)%nat then 255 else 0.
Definition red : NdArray := Array3 2 2 3 red_item.

(** A bright picture twice as wide as it is tall. *)
Definition wide_item (row col band : nat) : Z := 200.
Definition wide : NdArray := Array3 2 4 3 wide_item.

(** A bright square. *)
Definition square : NdArray := Array3 2 2 3 wide_item.

End Pictures.

(** * Properties *)

(** ** Facts about the grouper *)

Module GrouperFacts.
Import Grouper Order.











Section sort_facts.
Context {A : Type} (le : A → A → bool).
Lemma insert_stable_perm x l : insert_stable le x l ≡ₚ x :: l.
Proof.
  induction l as [|y r IH]; simpl; [done|].
  destruct (le x y); [done|]. rewrite IH. apply perm_swap.
Qed.

Lemma py_sort_perm l : py_sort le l ≡ₚ l.
Proof.
  induction l as [|x r IH]; simpl; [done|].
  by rewrite insert_stable_perm, IH.
Qed.

Context (le_total : ∀ x y, le x y = true ∨ le y x = true).
Context (le_trans : ∀ x y z, le x y = true → le y z = true → le x z = true).



(** A class of elements that [le] never separates keeps its order. *)
Context (p : A → bool).
Context (p_class : ∀ x y, p x = true → p y = true → le x y = true).


End sort_facts.









Lemma group_length v l : length (Pipeline.group v l) = length l.
Proof. destruct v; simpl; apply Permutation_length, py_sort_perm. Qed.

End GrouperFacts.

(** ** Facts about the orchestrator *)

Module PipelineFacts.
Import FS Ledger Compositor Pipeline.

Lemma saved_app t1 t2 : saved (t1 ++ t2) = saved t1 ++ saved t2.
Proof. apply omap_app. Qed.
Lemma opened_app t1 t2 : opened (t1 ++ t2) = opened t1 ++ opened t2.
Proof. apply omap_app. Qed.
Lemma listed_app t1 t2 : listed (t1 ++ t2) = listed t1 ++ listed t2.
Proof. apply omap_app. Qed.
Lemma log_writes_app t1 t2 : log_writes (t1 ++ t2) = log_writes t1 ++ log_writes t2.
Proof. apply omap_app. Qed.

Lemma saved_opens path l : saved (opens path l) = [].
Proof. induction l; simpl; auto. Qed.
Lemma listed_opens path l : listed (opens path l) = [].
Proof. induction l; simpl; auto. Qed.
Lemma log_writes_opens path l : log_writes (opens path l) = [].
Proof. induction l; simpl; auto. Qed.
Lemma opened_opens path l : opened (opens path l) = (λ f, path ++ [f]) <$> l.
Proof. induction l; simpl; [done|]. unfold opened in *. simpl. by f_equal. Qed.

Lemma saved_save n c t : saved (EvSave n c :: t) = (n, c) :: saved t.
Proof. reflexivity. Qed.
Lemma opened_save n c t : opened (EvSave n c :: t) = opened t.
Proof. reflexivity. Qed.
Lemma listed_save n c t : listed (EvSave n c :: t) = listed t.
Proof. reflexivity. Qed.
Lemma log_writes_save n c t : log_writes (EvSave n c :: t) = log_writes t.
Proof. reflexivity. Qed.

Lemma opens_app path l1 l2 : opens path (l1 ++ l2) = opens path l1 ++ opens path l2.
Proof. apply fmap_app. Qed.

Section subcategory_facts.
Context (version : Version) (grid_size image_size : Z * Z).
Context (category subcategory : string).
Context (path : list string) (dir : Listing).

Lemma check_one_frame f s :
  let s' := check_one category subcategory path dir f s in
  trace s' = trace s ++ [EvOpen (path ++ [f])]
  ∧ log_entries s' = log_entries s
  ∧ batch_number s' = batch_number s
  ∧ processed_in_category s' = processed_in_category s
  ∧ stitched_in_category s' = stitched_in_category s
  ∧ available_images s' = available_images s
  ∧ checked_in_category s' = checked_in_category s + 1.
Proof.
  unfold check_one. simpl.
  destruct (decode dir f) as [d|]; simpl; [|done].
  case_bool_decide; simpl; [|done].
  destruct (append_duplicate _ _ _); simpl; done.
Qed.

Lemma check_one_pool f s :
  let s' := check_one category subcategory path dir f s in
  (images s' = images s ∧ batch_log s' = batch_log s
   ∧ processed_images s' = processed_images s)
  ∨ (∃ d, decode dir f = Some d
        ∧ processed_images s !! KHash (d_hash d) = None
        ∧ images s' = images s ++ [record_of d f]
        ∧ batch_log s'
          = batch_log s ++ [mkLogEntry category subcategory (batch_number s)
                              (str_of_hash (d_hash d)) f]
        ∧ processed_images s'
          = <[KHash (d_hash d) := batch_number s]> (processed_images s)).
Proof.
  unfold check_one. simpl.
  destruct (decode dir f) as [d|]; simpl; [|by left].
  case_bool_decide as Hd; simpl.
  - destruct (append_duplicate _ _ _); simpl; by left.
  - right. exists d. repeat split; try done.
    by apply eq_None_not_Some.
Qed.

Lemma collect_spec avail s :
  let s' := collect grid_size category subcategory path dir avail s in
  ∃ consumed new,
    avail = consumed ++ available_images s'
    ∧ trace s' = trace s ++ opens path consumed
    ∧ log_entries s' = log_entries s
    ∧ batch_number s' = batch_number s
    ∧ processed_in_category s' = processed_in_category s
    ∧ stitched_in_category s' = stitched_in_category s
    ∧ checked_in_category s' = checked_in_category s + Z.of_nat (length consumed)
    ∧ images s' = images s ++ new
    ∧ length (batch_log s') = (length (batch_log s) + length new)%nat
    ∧ (length new ≤ length consumed)%nat
    ∧ (consumed = [] ∨ Z.of_nat (length (images s')) ≤ capacity grid_size)
    ∧ (Z.of_nat (length (images s')) < capacity grid_size →
       available_images s' = []).
Proof.
  revert s. induction avail as [|f rest IH]; intros s; simpl.
  { exists [], []. simpl. rewrite !app_nil_r.
    repeat split; try done; try lia. by left. }
  destruct (Z.of_nat (length (images s)) <? capacity grid_size) eqn:Hlt.
  - apply Z.ltb_lt in Hlt.
    set (s1 := check_one category subcategory path dir f
                 (set_available_images rest s)).
    destruct (IH s1) as (consumed & new & Hav & Htr & Hlog & Hbn & Hpr & Hst
                          & Hch & Him & Hbl & Hle & Hcap & Hend).
    remember (collect grid_size category subcategory path dir rest s1) as s2.
    destruct (check_one_frame f (set_available_images rest s))
      as (Ftr & Flog & Fbn & Fpr & Fst & Fav & Fch).
    fold s1 in Ftr, Flog, Fbn, Fpr, Fst, Fav, Fch. simpl in *.
    destruct (check_one_pool f (set_available_images rest s))
      as [(Pi & Pb & _)|(d & _ & _ & Pi & Pb & _)]; fold s1 in Pi, Pb; simpl in *.
    + exists (f :: consumed), new. simpl.
      split; [by f_equal|]. split; [by rewrite Htr, Ftr, <- app_assoc|].
      split; [congruence|]. split; [congruence|]. split; [congruence|].
      split; [congruence|]. split; [lia|]. split; [congruence|].
      split; [congruence|]. split; [lia|]. split; [|done].
      right. destruct Hcap as [->|Hcap]; [|done].
      destruct new; [|simpl in Hle; lia].
      rewrite Him, app_nil_r, Pi. lia.
    + exists (f :: consumed), (record_of d f :: new). simpl.
      split; [by f_equal|]. split; [by rewrite Htr, Ftr, <- app_assoc|].
      split; [congruence|]. split; [congruence|]. split; [congruence|].
      split; [congruence|]. split; [lia|].
      split; [by rewrite Him, Pi, <- app_assoc|].
      split; [rewrite Hbl, Pb, length_app; simpl; lia|]. split; [lia|].
      split; [|done].
      right. destruct Hcap as [->|Hcap]; [|done].
      destruct new; [|simpl in Hle; lia].
      rewrite Him, app_nil_r, Pi, length_app. simpl. lia.
  - apply Z.ltb_ge in Hlt. exists [], []. simpl. rewrite !app_nil_r.
    repeat split; try done; try lia. by left.
Qed.

Lemma py_slice_to_all {A} (n : Z) (l : list A) :
  Z.of_nat (length l) = n → py_slice_to n l = l.
Proof.
  intros <-. unfold py_slice_to.
  destruct (Z.leb_spec 0 (Z.of_nat (length l))) as [_|E]; [|lia].
  rewrite Nat2Z.id. by apply take_ge.
Qed.

Lemma match_nonempty {A B} (l : list A) (a b : B) :
  l ≠ [] → match l with [] => a | _ :: _ => b end = b.
Proof. by destruct l. Qed.

Lemma render_refused s :
  canvas_refused grid_size image_size = true →
  render version grid_size image_size category subcategory s = Raise s.
Proof. intros H. unfold render. by rewrite H. Qed.

Lemma render_spec s :
  canvas_refused grid_size image_size = false →
  let s' := state_of_flow
              (render version grid_size image_size category subcategory s) in
  trace s'
  = trace s ++ EvSave (stitched_image_name category subcategory (batch_number s))
                 (stitch grid_size image_size (images s))
               :: dds_events version category subcategory (batch_number s)
  ∧ log_entries s' = log_entries s ++ batch_log s
  ∧ available_images s' = available_images s
  ∧ checked_in_category s' = checked_in_category s
  ∧ (render version grid_size image_size category subcategory s = Raise s'
     ∨ (render version grid_size image_size category subcategory s = Continue s'
        ∧ batch_number s' = batch_number s + 1
        ∧ stitched_in_category s' = stitched_in_category s + 1
        ∧ processed_in_category s'
          = processed_in_category s + Z.of_nat (length (images s)))).
Proof.
  intros Hok. unfold render. rewrite Hok.
  destruct version; simpl;
    destruct (add_counter category "Stitched batches" 1 (category_summaries s));
    simpl; rewrite <- ?app_assoc; simpl;
    (repeat split; try done); (by left) || (right; done).
Qed.

Lemma cycle_spec s :
  let s' := state_of_flow
              (cycle version grid_size image_size category subcategory path dir s) in
  ∃ consumed,
    available_images s = consumed ++ available_images s'
    ∧ checked_in_category s'
      = checked_in_category s + Z.of_nat (length consumed)
    ∧ ((((cycle version grid_size image_size category subcategory path dir s
          = Break s'
          ∧ (0 < capacity grid_size → available_images s' = []))
         ∨ (cycle version grid_size image_size category subcategory path dir s
            = Continue s'
            ∧ consumed ≠ [] ∧ available_images s' = []))
        ∧ trace s' = trace s ++ opens path consumed
        ∧ log_entries s' = log_entries s
        ∧ batch_number s' = batch_number s
        ∧ stitched_in_category s' = stitched_in_category s
        ∧ processed_in_category s' = processed_in_category s)
       ∨ (cycle version grid_size image_size category subcategory path dir s
          = Raise s'
          ∧ canvas_refused grid_size image_size = true
          ∧ trace s' = trace s ++ opens path consumed
          ∧ log_entries s' = log_entries s
          ∧ batch_number s' = batch_number s)
       ∨ (∃ c, consumed ≠ []
            ∧ canvas_refused grid_size image_size = false
            ∧ trace s'
              = trace s ++ opens path consumed
                ++ EvSave (stitched_image_name category subcategory
                             (batch_number s)) c
                   :: dds_events version category subcategory (batch_number s)
            ∧ Z.of_nat (length (pastes c)) = capacity grid_size
            ∧ Z.of_nat (length (log_entries s'))
              = Z.of_nat (length (log_entries s)) + capacity grid_size
            ∧ (cycle version grid_size image_size category subcategory path dir s
               = Raise s'
               ∨ (cycle version grid_size image_size category subcategory
                    path dir s = Continue s'
                  ∧ batch_number s' = batch_number s + 1
                  ∧ stitched_in_category s' = stitched_in_category s + 1
                  ∧ processed_in_category s'
                    = processed_in_category s + capacity grid_size)))).
Proof.
  unfold cycle.
  set (s0 := set_images [] (set_batch_log [] s)).
  destruct (collect_spec (available_images s0) s0)
    as (consumed & new & Hav & Htr & Hlog & Hbn & Hpr & Hst & Hch & Him
        & Hbl & Hle & Hcap & Hend).
  remember (collect grid_size category subcategory path dir
              (available_images s0) s0) as s1.
  simpl in *. exists consumed.
  destruct (decide (images s1 = [])) as [Hi|Hi].
  { rewrite Hi. simpl. split; [exact Hav|]. split; [exact Hch|]. left.
    split; [|done]. left. split; [done|].
    intros Hpos. apply Hend. by rewrite Hi. }
  assert (consumed ≠ []) as Hne.
  { intros ->. destruct new; [done|]. simpl in Hle. lia. }
  destruct Hcap as [?|Hcap]; [done|].
  rewrite match_nonempty by done. simpl. rewrite GrouperFacts.group_length.
  destruct (Z.of_nat (length (images s1)) <? capacity grid_size) eqn:Hlt.
  - apply Z.ltb_lt in Hlt. simpl.
    split; [done|]. split; [done|]. left.
    repeat split; try done. right. repeat split; try done. by apply Hend.
  - apply Z.ltb_ge in Hlt.
    assert (Z.of_nat (length (images s1)) = capacity grid_size) as Hfull by lia.
    assert (length (batch_log s1) = length (images s1)) as Hbl'.
    { by rewrite Hbl, <- Him. }
    assert (Z.of_nat (length (pastes (stitch grid_size image_size
                                        (group version (images s1)))))
            = capacity grid_size) as Hp.
    { unfold stitch. simpl. rewrite length_imap.
      fold (capacity grid_size).
      rewrite py_slice_to_all; rewrite GrouperFacts.group_length; done. }
    destruct (canvas_refused grid_size image_size) eqn:Hcanvas.
    { rewrite render_refused by done. simpl.
      split; [done|]. split; [done|]. right. left. done. }
    destruct (render_spec (set_images (group version (images s1)) s1) Hcanvas)
      as (Rtr & Rlog & Rav & Rch & Rres).
    simpl in Rtr, Rlog, Rav, Rch, Rres.
    split; [by rewrite Rav|]. split; [by rewrite Rch|]. right. right.
    exists (stitch grid_size image_size (group version (images s1))).
    split; [done|]. split; [done|].
    split; [by rewrite Rtr, Htr, Hbn, <- app_assoc|].
    split; [exact Hp|]. split; [rewrite Rlog, length_app, Hlog; lia|].
    destruct Rres as [R|(R & Rb & Rs & Rp)]; [by left|right].
    rewrite GrouperFacts.group_length in Rp.
    split; [done|]. split; [lia|]. split; lia.
Qed.


Lemma batch_names_S first n :
  batch_names category subcategory first (S n)
  = stitched_image_name category subcategory first
    :: batch_names category subcategory (first + 1) n.
Proof.
  unfold batch_names. rewrite (seqZ_cons first) by lia. simpl.
  do 3 f_equal; lia.
Qed.

Lemma dds_events_silent b :
  saved (dds_events version category subcategory b) = []
  ∧ opened (dds_events version category subcategory b) = []
  ∧ listed (dds_events version category subcategory b) = []
  ∧ log_writes (dds_events version category subcategory b) = []
  ∧ Forall (λ e, under [category; "main"] e = false)
      (dds_events version category subcategory b).
Proof. destruct version; simpl; repeat split; repeat constructor. Qed.

Lemma opens_not_under_main l :
  path ≠ [category; "main"] → (length path ≤ 2)%nat →
  Forall (λ e, under [category; "main"] e = false) (opens path l).
Proof.
  intros Hp Hl. apply Forall_fmap, Forall_forall. intros f _. simpl.
  apply andb_false_iff.
  destruct path as [|a [|b [|c r]]]; simpl in *; try lia.
  left. by apply bool_decide_eq_false.
Qed.

Lemma cycles_spec fuel s o :
  cycles version grid_size image_size category subcategory path dir fuel s
  = Some o →
  ∃ consumed t (n : nat),
    available_images s = consumed ++ available_images (state_of o)
    ∧ trace (state_of o) = trace s ++ t
    ∧ opened t = (λ f, path ++ [f]) <$> consumed
    ∧ (saved t).*1 = batch_names category subcategory (batch_number s) n
    ∧ Forall (λ nc, Z.of_nat (length (pastes nc.2)) = capacity grid_size)
        (saved t)
    ∧ listed t = [] ∧ log_writes t = []
    ∧ (path ≠ [category; "main"] → (length path ≤ 2)%nat →
       Forall (λ e, under [category; "main"] e = false) t)
    ∧ Z.of_nat (length (log_entries (state_of o)))
      = Z.of_nat (length (log_entries s)) + capacity grid_size * Z.of_nat n
    ∧ checked_in_category (state_of o)
      = checked_in_category s + Z.of_nat (length consumed)
    ∧ (o = Returned (state_of o) →
       batch_number (state_of o) = batch_number s + Z.of_nat n
       ∧ stitched_in_category (state_of o)
         = stitched_in_category s + Z.of_nat n
       ∧ processed_in_category (state_of o)
         = processed_in_category s + capacity grid_size * Z.of_nat n
       ∧ (0 < capacity grid_size → available_images (state_of o) = [])).
Proof.
  revert s. induction fuel as [|fuel IH]; intros s; simpl.
  - destruct (available_images s) eqn:Hav; [|done].
    intros [= <-]. exists [], [], 0%nat. simpl. rewrite app_nil_r.
    repeat split; try done; try lia; try by constructor.
  - destruct (available_images s) as [|a0 r0] eqn:Hav.
    { intros [= <-]. exists [], [], 0%nat. simpl. rewrite app_nil_r.
      repeat split; try done; try lia; try by constructor. }
    rewrite <- Hav.
    pose proof (cycle_spec s) as (consumed & Havs & Hchk & Hc).
    destruct (cycle version grid_size image_size category subcategory path dir s)
      as [s'|s'|s'] eqn:Hcy; simpl in Havs, Hchk, Hc.
    + (* the loop goes on *)
      intros Hrest. destruct (IH s' Hrest)
        as (consumed' & t' & n' & Hav' & Htr' & Hop' & Hsv' & Hfull' & Hls'
            & Hlw' & Hum' & Hlog' & Hchk' & Hret').
      destruct Hc as [([(? & _)|(_ & Hne & Hnil)] & Htr & Hlog & Hbn & Hst & Hpr)
                     |[(? & _)
                      |(c & Hne & _ & Htr & Hfull & Hlog
                        & [?|(_ & Hbn & Hst & Hpr)])]];
        try done.
      * exists (consumed ++ consumed'), (opens path consumed ++ t'), n'.
        split; [by rewrite Havs, Hav', app_assoc|].
        split; [by rewrite Htr', Htr, app_assoc|].
        split; [by rewrite opened_app, opened_opens, Hop', fmap_app|].
        split; [by rewrite saved_app, saved_opens, app_nil_l, Hsv', Hbn|].
        split; [by rewrite saved_app, saved_opens|].
        split; [by rewrite listed_app, listed_opens|].
        split; [by rewrite log_writes_app, log_writes_opens|].
        split; [intros; apply Forall_app; split;
                [by apply opens_not_under_main|by apply Hum']|].
        split; [by rewrite Hlog', Hlog|].
        split; [rewrite Hchk', Hchk, length_app; lia|].
        intros Ho. destruct (Hret' Ho) as (? & ? & ? & ?).
        repeat split; try done; lia.
      * exists (consumed ++ consumed'),
          (opens path consumed
           ++ EvSave (stitched_image_name category subcategory (batch_number s)) c
              :: dds_events version category subcategory (batch_number s) ++ t'),
          (S n').
        destruct (dds_events_silent (batch_number s))
          as (Ds & Do & Dl & Dw & Du).
        split; [by rewrite Havs, Hav', app_assoc|].
        split; [by rewrite Htr', Htr, <- !app_assoc|].
        split.
        { rewrite opened_app, opened_opens, opened_save, opened_app, Do, Hop'.
          by rewrite fmap_app. }
        split.
        { rewrite saved_app, saved_opens, saved_save, saved_app, Ds, !app_nil_l.
          by rewrite fmap_cons, batch_names_S, Hsv', Hbn. }
        split.
        { rewrite saved_app, saved_opens, saved_save, saved_app, Ds. simpl.
          by constructor. }
        split.
        { by rewrite listed_app, listed_opens, listed_save, listed_app, Dl. }
        split.
        { by rewrite log_writes_app, log_writes_opens, log_writes_save,
            log_writes_app, Dw. }
        split.
        { intros. apply Forall_app; split; [by apply opens_not_under_main|].
          constructor; [done|]. apply Forall_app; split; [done|by apply Hum']. }
        split; [rewrite Hlog', Hlog; lia|].
        split; [rewrite Hchk', Hchk, length_app; lia|].
        intros Ho. destruct (Hret' Ho) as (? & ? & ? & ?).
        repeat split; try done; lia.
    + (* break *)
      intros [= <-]. simpl.
      destruct Hc as [([(_ & Hnil)|(? & _)] & Htr & Hlog & Hbn & Hst & Hpr)
                     |[(? & _)
                      |(c & Hne & _ & Htr & Hfull & Hlog & [?|(? & _)])]];
        try done.
      exists consumed, (opens path consumed), 0%nat.
      split; [done|]. split; [done|].
      split; [by rewrite opened_opens|].
      split; [by rewrite saved_opens|].
      split; [by rewrite saved_opens|].
      split; [by rewrite listed_opens|].
      split; [by rewrite log_writes_opens|].
      split; [by intros; apply opens_not_under_main|].
      split; [rewrite Hlog; lia|].
      split; [done|].
      intros _. repeat split; try done; lia.
    + (* an exception leaves the loop *)
      intros [= <-]. simpl.
      destruct Hc as [([(? & _)|(? & _)] & _)
                     |[(_ & _ & Htr & Hlog & Hbn)
                      |(c & Hne & _ & Htr & Hfull & Hlog & _)]]; try done.
      { exists consumed, (opens path consumed), 0%nat.
        split; [done|]. split; [done|].
        split; [by rewrite opened_opens|].
        split; [by rewrite saved_opens|].
        split; [by rewrite saved_opens|].
        split; [by rewrite listed_opens|].
        split; [by rewrite log_writes_opens|].
        split; [by intros; apply opens_not_under_main|].
        split; [rewrite Hlog; lia|].
        split; [done|].
        intros [=]. }
      destruct (dds_events_silent (batch_number s))
        as (Ds & Do & Dl & Dw & Du).
      exists consumed,
        (opens path consumed
         ++ EvSave (stitched_image_name category subcategory (batch_number s)) c
            :: dds_events version category subcategory (batch_number s)),
        1%nat.
      split; [done|]. split; [done|].
      split.
      { by rewrite opened_app, opened_opens, opened_save, Do, app_nil_r. }
      split.
      { by rewrite saved_app, saved_opens, saved_save, Ds. }
      split.
      { rewrite saved_app, saved_opens, saved_save, Ds. by repeat constructor. }
      split.
      { by rewrite listed_app, listed_opens, listed_save, Dl. }
      split.
      { by rewrite log_writes_app, log_writes_opens, log_writes_save, Dw. }
      split.
      { intros. apply Forall_app; split; [by apply opens_not_under_main|].
        by constructor. }
      split; [rewrite Hlog; lia|].
      split; [done|].
      intros [=].
Qed.

Lemma cycles_total fuel s :
  (length (available_images s) < fuel)%nat →
  is_Some (cycles version grid_size image_size category subcategory path dir
             fuel s).
Proof.
  revert s. induction fuel as [|fuel IH]; intros s Hlt; [lia|]. simpl.
  destruct (available_images s) as [|a0 r0] eqn:Hav; [done|].
  pose proof (cycle_spec s) as (consumed & Havs & _ & Hc).
  destruct (cycle version grid_size image_size category subcategory path dir s)
    as [s'|s'|s'] eqn:Hcy; simpl in Havs, Hc; [|done..].
  apply IH.
  assert (consumed ≠ []) as Hne.
  { destruct Hc as [([(? & _)|(_ & Hne & _)] & _)|[(? & _)|(c & Hne & _)]];
      done. }
  rewrite Hav in Havs. apply (f_equal length) in Havs.
  rewrite length_app in Havs. simpl in *.
  destruct consumed; [done|]. simpl in *. lia.
Qed.

End subcategory_facts.

Lemma listed_listdir p t : listed (EvListdir p :: t) = p :: listed t.
Proof. reflexivity. Qed.
Lemma saved_listdir p t : saved (EvListdir p :: t) = saved t.
Proof. reflexivity. Qed.
Lemma opened_listdir p t : opened (EvListdir p :: t) = opened t.
Proof. reflexivity. Qed.
Lemma log_writes_listdir p t : log_writes (EvListdir p :: t) = log_writes t.
Proof. reflexivity. Qed.

#[local] Arguments cycles : simpl never.

Section category_facts.
Context (version : Version) (grid_size image_size : Z * Z).
Context (category : string) (entries : Listing).

Lemma subcategory_path_not_main sub :
  subcategory_path_of category sub ≠ [category; "main"]
  ∧ (length (subcategory_path_of category sub) ≤ 2)%nat.
Proof.
  unfold subcategory_path_of. case_bool_decide; simpl; split; try lia; congruence.
Qed.

Lemma listdir_not_under_main sub :
  under [category; "main"] (EvListdir (subcategory_path_of category sub)) = false.
Proof.
  unfold subcategory_path_of. simpl. apply bool_decide_eq_false.
  case_bool_decide; simpl; congruence.
Qed.

Lemma process_subcategory_spec sub s :
  ∃ o,
    process_subcategory version grid_size image_size category entries sub s
    = Some o
    ∧ ∃ t (n : nat) consumed,
        trace (state_of o) = trace s ++ t
        ∧ (saved t).*1 = batch_names category sub 1 n
        ∧ Forall (λ nc, Z.of_nat (length (pastes nc.2)) = capacity grid_size)
            (saved t)
        ∧ log_writes t = []
        ∧ Forall (λ e, under [category; "main"] e = false) t
        ∧ Z.of_nat (length (log_entries (state_of o)))
          = Z.of_nat (length (log_entries s)) + capacity grid_size * Z.of_nat n
        ∧ opened t = (λ f, subcategory_path_of category sub ++ [f]) <$> consumed
        ∧ (∀ dir, subcategory_dir entries sub = Some dir →
             ∃ rest, image_files dir = consumed ++ rest)
        ∧ (∀ dir, subcategory_dir entries sub = Some dir →
             image_files dir ≠ [] → o = Returned (state_of o) →
             ∃ d, category_summaries (state_of o) !! category = Some d
                  ∧ d !! sub = Some (VDict (subcategory_summary (state_of o)))
                  ∧ stitched_in_category (state_of o) = Z.of_nat n
                  ∧ checked_in_category (state_of o)
                    = Z.of_nat (length consumed)
                  ∧ (0 < capacity grid_size →
                     available_images (state_of o) = [])).
Proof.
  unfold process_subcategory.
  destruct (subcategory_dir entries sub) as [dir|] eqn:Hdir.
  2:{ eexists. split; [done|]. exists [], 0%nat, []. simpl.
      rewrite app_nil_r. repeat split; try done; try lia; by constructor. }
  simpl.
  destruct (image_files dir) as [|f0 fs] eqn:Hfiles.
  { eexists. split; [done|].
    exists [EvListdir (subcategory_path_of category sub)], 0%nat, []. simpl.
    repeat split; try done; try lia.
    - repeat constructor. apply listdir_not_under_main.
    - intros d [= <-]. exists []. by rewrite Hfiles.
    - intros d [= <-]. by rewrite Hfiles. }
  rewrite <- Hfiles. unfold try_summaries at 1. simpl.
  destruct (add_counter category "Images in folder" _ _) as [cs0|].
  2:{ eexists. split; [done|].
      exists [EvListdir (subcategory_path_of category sub)], 0%nat, []. simpl.
      repeat split; try done; try lia.
      - repeat constructor. apply listdir_not_under_main.
      - intros d [= <-]. by exists (image_files dir). }
  match goal with
  | |- context [cycles ?v ?g ?i ?c ?sb ?p ?d ?fuel ?st] =>
      destruct (cycles_total v g i c sb p d fuel st) as [o Ho]; [simpl; lia|];
      rewrite Ho;
      destruct (cycles_spec v g i c sb p d fuel st o Ho)
        as (consumed & t & n & Hav & Htr & Hop & Hsv & Hfull & Hls & Hlw
            & Hum & Hlog & Hchk & Hret)
  end.
  simpl in Hav, Htr, Hlog, Hchk, Hret, Hsv.
  destruct (subcategory_path_not_main sub) as [Hp1 Hp2].
  specialize (Hum Hp1 Hp2).
  assert (∀ o', trace (state_of o') = trace (state_of o) →
                length (log_entries (state_of o')) = length (log_entries (state_of o)) →
          ∃ t0 (n0 : nat) consumed0,
            trace (state_of o') = trace s ++ t0
            ∧ (saved t0).*1 = batch_names category sub 1 n0
            ∧ Forall (λ nc, Z.of_nat (length (pastes nc.2)) = capacity grid_size)
                (saved t0)
            ∧ log_writes t0 = []
            ∧ Forall (λ e, under [category; "main"] e = false) t0
            ∧ Z.of_nat (length (log_entries (state_of o')))
              = Z.of_nat (length (log_entries s))
                + capacity grid_size * Z.of_nat n0
            ∧ opened t0
              = (λ f, subcategory_path_of category sub ++ [f]) <$> consumed0
            ∧ (∀ dir0, Some dir = Some dir0 →
                 ∃ rest, image_files dir0 = consumed0 ++ rest)
            ∧ t0 = EvListdir (subcategory_path_of category sub) :: t
            ∧ n0 = n ∧ consumed0 = consumed) as Hframe.
  { intros o' Et El.
    exists (EvListdir (subcategory_path_of category sub) :: t), n, consumed.
    split; [by rewrite Et, Htr, <- app_assoc|].
    split; [by rewrite saved_listdir|].
    split; [by rewrite saved_listdir|].
    split; [by rewrite log_writes_listdir|].
    split; [constructor; [apply listdir_not_under_main|done]|].
    split; [rewrite El, Hlog; lia|].
    split; [by rewrite opened_listdir|].
    split; [|done].
    intros d [= <-]. exists (available_images (state_of o)). done. }
  destruct o as [s'|s']; simpl in *.
  2:{ eexists. split; [done|].
      destruct (Hframe (Raised s') eq_refl eq_refl)
        as (t0 & n0 & c0 & F1 & F2 & F3 & F4 & F5 & F6 & F7 & F8 & _).
      exists t0, n0, c0. repeat split; done. }
  destruct (Hret eq_refl) as (Hbn & Hst & Hpr & Hnil).
  unfold try_summaries.
  destruct (add_counter category "Checked" _ _) as [cs1|]; simpl.
  2:{ eexists. split; [done|].
      destruct (Hframe (Raised s') eq_refl eq_refl)
        as (t0 & n0 & c0 & F1 & F2 & F3 & F4 & F5 & F6 & F7 & F8 & _).
      exists t0, n0, c0. repeat split; done. }
  destruct (add_counter category "Duplicates found" _ _) as [cs2|]; simpl.
  2:{ eexists. split; [done|].
      destruct (Hframe (Raised (set_category_summaries cs1 s')) eq_refl eq_refl)
        as (t0 & n0 & c0 & F1 & F2 & F3 & F4 & F5 & F6 & F7 & F8 & _).
      exists t0, n0, c0. repeat split; done. }
  destruct (add_counter category "Processed" _ _) as [cs3|]; simpl.
  2:{ eexists. split; [done|].
      destruct (Hframe (Raised (set_category_summaries cs2
                                  (set_category_summaries cs1 s')))
                  eq_refl eq_refl)
        as (t0 & n0 & c0 & F1 & F2 & F3 & F4 & F5 & F6 & F7 & F8 & _).
      exists t0, n0, c0. repeat split; done. }
  unfold set_subcategory.
  destruct (cs3 !! category) as [d3|] eqn:Hd3; simpl.
  2:{ eexists. split; [done|].
      destruct (Hframe (Raised (set_category_summaries cs3
                                  (set_category_summaries cs2
                                     (set_category_summaries cs1 s'))))
                  eq_refl eq_refl)
        as (t0 & n0 & c0 & F1 & F2 & F3 & F4 & F5 & F6 & F7 & F8 & _).
      exists t0, n0, c0. repeat split; done. }
  eexists. split; [done|].
  match goal with
  | |- context [state_of (Returned ?st)] =>
      destruct (Hframe (Returned st) eq_refl eq_refl)
        as (t0 & n0 & c0 & F1 & F2 & F3 & F4 & F5 & F6 & F7 & F8 & -> & -> & ->)
  end.
  exists (EvListdir (subcategory_path_of category sub) :: t), n, consumed.
  repeat split; try done.
  intros d0 _ _ _. simpl.
  eexists. split; [apply lookup_insert_eq|].
  split; [apply lookup_insert_eq|].
  split; [lia|]. split; [lia|]. done.
Qed.
End category_facts.


Lemma batch_names_length category sub first n :
  length (batch_names category sub first n) = n.
Proof. unfold batch_names. rewrite length_fmap, length_seqZ. lia. Qed.

(** What every stretch of a run keeps true: each grid saved is full, the CSV
    file is not written, and the log list grows by one grid's worth of
    entries per grid saved. *)
Lemma stretch_refl (grid_size : Z * Z) s :
  ∃ t, trace s = trace s ++ t
       ∧ Forall (λ nc, Z.of_nat (length (pastes nc.2)) = capacity grid_size)
           (saved t)
       ∧ log_writes t = []
       ∧ Z.of_nat (length (log_entries s))
         = Z.of_nat (length (log_entries s))
           + capacity grid_size * Z.of_nat (length (saved t)).
Proof. exists []. simpl. rewrite app_nil_r. repeat split; try done. lia. Qed.

Section run_facts.
Context (version : Version) (grid_size image_size : Z * Z).

Lemma for_subcategories_spec category entries subs s :
  ∃ o,
    for_subcategories version grid_size image_size category entries subs s
    = Some o
    ∧ ∃ t,
        trace (state_of o) = trace s ++ t
        ∧ Forall (λ nc, Z.of_nat (length (pastes nc.2)) = capacity grid_size)
            (saved t)
        ∧ log_writes t = []
        ∧ Forall (λ e, under [category; "main"] e = false) t
        ∧ Z.of_nat (length (log_entries (state_of o)))
          = Z.of_nat (length (log_entries s))
            + capacity grid_size * Z.of_nat (length (saved t)).
Proof.
  revert s. induction subs as [|sub subs IH]; intros s; simpl.
  { eexists. split; [done|]. exists []. simpl. rewrite app_nil_r.
    repeat split; try done. lia. }
  destruct (process_subcategory_spec version grid_size image_size category
              entries sub s)
    as (o & -> & t & n & consumed & Htr & Hsv & Hfull & Hlw & Hum & Hlog & _).
  assert (length (saved t) = n) as Hn.
  { rewrite <- (length_fmap fst), Hsv. apply batch_names_length. }
  destruct o as [s'|s']; simpl in *.
  - destruct (IH s') as (o & -> & t' & Htr' & Hfull' & Hlw' & Hum' & Hlog').
    eexists. split; [done|]. exists (t ++ t').
    split; [by rewrite Htr', Htr, app_assoc|].
    split; [rewrite saved_app; by apply Forall_app|].
    split; [by rewrite log_writes_app, Hlw, Hlw'|].
    split; [by apply Forall_app|].
    rewrite saved_app, length_app, Hlog', Hlog. lia.
  - eexists. split; [done|]. exists t. simpl.
    repeat split; try done. rewrite Hlog. lia.
Qed.

Lemma process_category_spec input_dir category s :
  ∃ o,
    process_category version input_dir grid_size image_size category s = Some o
    ∧ ∃ t,
        trace (state_of o) = trace s ++ t
        ∧ Forall (λ nc, Z.of_nat (length (pastes nc.2)) = capacity grid_size)
            (saved t)
        ∧ log_writes t = []
        ∧ Forall (λ e, under [category; "main"] e = false) t
        ∧ Z.of_nat (length (log_entries (state_of o)))
          = Z.of_nat (length (log_entries s))
            + capacity grid_size * Z.of_nat (length (saved t)).
Proof.
  unfold process_category.
  destruct (child input_dir category) as [[c|entries]|].
  1,3: (eexists; split; [done|]; exists []; simpl; rewrite app_nil_r;
        repeat split; try done; lia).
  match goal with
  | |- context [for_subcategories ?v ?g ?i ?c ?e ?subs ?st] =>
      destruct (for_subcategories_spec c e subs st)
        as (o & -> & t & Htr & Hfull & Hlw & Hum & Hlog)
  end.
  simpl in Htr, Hlog.
  eexists. split; [done|]. exists (EvListdir [category] :: t).
  split; [by rewrite Htr, <- app_assoc|].
  split; [by rewrite saved_listdir|].
  split; [by rewrite log_writes_listdir|].
  split; [constructor; [by apply bool_decide_eq_false|done]|].
  by rewrite saved_listdir.
Qed.

Lemma for_categories_spec input_dir categories s :
  ∃ o,
    for_categories version input_dir grid_size image_size categories s = Some o
    ∧ ∃ t,
        trace (state_of o) = trace s ++ t
        ∧ Forall (λ nc, Z.of_nat (length (pastes nc.2)) = capacity grid_size)
            (saved t)
        ∧ log_writes t = []
        ∧ Z.of_nat (length (log_entries (state_of o)))
          = Z.of_nat (length (log_entries s))
            + capacity grid_size * Z.of_nat (length (saved t)).
Proof.
  revert s. induction categories as [|category rest IH]; intros s; simpl.
  { eexists. split; [done|]. apply stretch_refl. }
  destruct (process_category_spec input_dir category s)
    as (o & -> & t & Htr & Hfull & Hlw & _ & Hlog).
  destruct o as [s'|s']; simpl in *.
  - destruct (IH s') as (o & -> & t' & Htr' & Hfull' & Hlw' & Hlog').
    eexists. split; [done|]. exists (t ++ t').
    split; [by rewrite Htr', Htr, app_assoc|].
    split; [rewrite saved_app; by apply Forall_app|].
    split; [by rewrite log_writes_app, Hlw, Hlw'|].
    rewrite saved_app, length_app, Hlog', Hlog. lia.
  - eexists. split; [done|]. exists t. done.
Qed.

Lemma stitch_images_spec input_dir log_csv :
  ∃ r,
    stitch_images version input_dir log_csv grid_size image_size = Some r
    ∧ Forall (λ nc, Z.of_nat (length (pastes nc.2)) = capacity grid_size)
        (saved (trace (final r)))
    ∧ Z.of_nat (length (log_entries (final r)))
      = capacity grid_size * Z.of_nat (length (saved (trace (final r))))
    ∧ (finished r = true →
       ∃ t, trace (final r)
            = t ++ [EvWriteLog (rows_written log_csv (log_entries (final r)))]
            ∧ log_writes t = []
            ∧ ledger r
              = Some (write_log_to_csv log_csv (log_entries (final r))))
    ∧ (finished r = false →
       log_writes (trace (final r)) = [] ∧ ledger r = log_csv).
Proof.
  unfold stitch_images.
  destruct (load_processed_images log_csv) as [processed|].
  2:{ eexists. split; [done|]. simpl. repeat split; try done. lia. }
  match goal with
  | |- context [for_categories ?v ?i ?g ?im ?cats ?st] =>
      destruct (for_categories_spec i cats st)
        as (o & -> & t & Htr & Hfull & Hlw & Hlog)
  end.
  simpl in Htr, Hlog.
  destruct o as [s|s]; simpl in *.
  - eexists. split; [done|]. simpl. rewrite Htr.
    split.
    { rewrite !saved_app. simpl. rewrite app_nil_r. done. }
    split.
    { rewrite !saved_app. simpl. rewrite app_nil_r. lia. }
    split; [|done].
    intros _. exists (EvListdir [] :: t). split; [done|].
    by rewrite log_writes_listdir.
  - eexists. split; [done|]. simpl. rewrite Htr.
    split; [done|]. split; [simpl; lia|]. split; [done|].
    intros _. split; [|done]. by rewrite log_writes_listdir.
Qed.
End run_facts.

End PipelineFacts.

Module CycleFacts.
Import FS Ledger Compositor Pipeline PipelineFacts.

Section pool_facts.
Context (version : Version) (grid_size image_size : Z * Z).
Context (category subcategory : string).
Context (path : list string) (dir : Listing).

(** The pool only ever holds files that decoded, each with its log entry. *)
Lemma collect_pool avail s :
  let s' := collect grid_size category subcategory path dir avail s in
  (Forall (λ r, is_Some (decode dir (filename r))) (images s) →
   Forall (λ r, is_Some (decode dir (filename r))) (images s'))
  ∧ (e_filename <$> batch_log s = filename <$> images s →
     e_filename <$> batch_log s' = filename <$> images s').
Proof.
  revert s. induction avail as [|f rest IH]; intros s; simpl; [done|].
  destruct (Z.of_nat (length (images s)) <? capacity grid_size); [|done].
  set (s1 := check_one category subcategory path dir f
               (set_available_images rest s)).
  destruct (IH s1) as [IH1 IH2].
  destruct (check_one_pool category subcategory path dir f
              (set_available_images rest s))
    as [(Pi & Pb & _)|(d & Hd & _ & Pi & Pb & _)]; fold s1 in Pi, Pb;
    simpl in Pi, Pb.
  - split; intros H; [apply IH1|apply IH2]; by rewrite ?Pi, ?Pb.
  - split; intros H; [apply IH1|apply IH2]; rewrite ?Pi, ?Pb.
    + apply Forall_app. split; [done|]. constructor; [|done].
      simpl. by rewrite Hd.
    + by rewrite !fmap_app, H.
Qed.

Lemma cycle_eq s :
  cycle version grid_size image_size category subcategory path dir s
  = let s1 := collect grid_size category subcategory path dir
                (available_images s) (set_images [] (set_batch_log [] s)) in
    match images s1 with
    | [] => Break s1
    | _ =>
        if Z.of_nat (length (images s1)) <? capacity grid_size
        then Continue (set_images (group version (images s1)) s1)
        else render version grid_size image_size category subcategory
               (set_images (group version (images s1)) s1)
    end.
Proof.
  unfold cycle. cbv zeta.
  change (available_images (set_images [] (set_batch_log [] s)))
    with (available_images s).
  destruct (images _); [done|].
  change (images (set_images ?v ?x)) with v.
  by rewrite GrouperFacts.group_length.
Qed.



(** A file that is a duplicate of something in the index at the moment it is
    examined is counted and left out of the pool. *)
Lemma check_one_duplicate f d s :
  decode dir f = Some d →
  is_Some (processed_images s !! KHash (d_hash d)) →
  let s' := check_one category subcategory path dir f s in
  images s' = images s
  ∧ batch_log s' = batch_log s
  ∧ duplicates_in_category s' = duplicates_in_category s + 1
  ∧ processed_in_category s' = processed_in_category s
  ∧ processed_images s' = processed_images s.
Proof.
  intros Hd Hin. unfold check_one. rewrite Hd. simpl.
  rewrite bool_decide_eq_true_2 by done.
  destruct (append_duplicate _ _ _); simpl; done.
Qed.

(** A file whose decoding raises changes the checked counter only. *)
Lemma check_one_error f s :
  decode dir f = None →
  check_one category subcategory path dir f s
  = emit (EvOpen (path ++ [f]))
      (set_checked_in_category (checked_in_category s + 1) s).
Proof. intros Hd. unfold check_one. by rewrite Hd. Qed.
End pool_facts.

(** A run over [Examples.gallery] with a 1 x 1 grid: the category directory
    is read as subcategory main, bad.jpg is opened and dropped, s.png carries
    the fingerprint of a.png, taken earlier in the same run, and is set aside
    as a duplicate; the directory main is not read. *)
Example gallery_run :
  (λ r, ((saved (trace (final r))).*1,
         opened (trace (final r)),
         category_value (category_summaries (final r)) "Cat" "Duplicate files",
         subcategory_counter (category_summaries (final r))
           "Cat" "sub" "Duplicates found"))
    <$> stitch_images V32 Examples.gallery None (1, 1) (512, 512)
  = Some (["Cat-main-1.png"; "Cat-main-2.png"; "Cat-sub-1.png"],
          [["Cat"; "a.png"]; ["Cat"; "b.PNG"]; ["Cat"; "bad.jpg"];
           ["Cat"; "sub"; "s.png"]; ["Cat"; "sub"; "t.jpeg"]],
          Some (VList ["s.png"]),
          Some 1).
Proof. vm_compute. reflexivity. Qed.



Lemma image_files_NoDup d : NoDup (listdir d) → NoDup (image_files d).
Proof.
  unfold image_files. intros H.
  induction H as [|x l Hx Hl IH]; simpl; [constructor|].
  destruct (isfile d x && recognized x); [|done].
  constructor; [|done].
  rewrite list_elem_of_In, filter_In, <- list_elem_of_In. tauto.
Qed.


(** With a grid of at least one cell, the summary of a subcategory that had
    images reports none in its folder: the list is read after the loop has
    emptied it. *)
Lemma images_in_folder_after_loop version grid_size image_size category entries
    sub dir s s' :
  process_subcategory version grid_size image_size category entries sub s
  = Some (Returned s') →
  subcategory_dir entries sub = Some dir →
  image_files dir ≠ [] →
  0 < capacity grid_size →
  subcategory_counter (category_summaries s') category sub "Images in folder"
  = Some 0.
Proof.
  intros Hrun Hdir Hfiles Hcap.
  destruct (process_subcategory_spec version grid_size image_size category
              entries sub s)
    as (o & Ho & t & n & consumed & _ & _ & _ & _ & _ & _ & _ & _ & Hsum).
  rewrite Hrun in Ho. injection Ho as <-.
  destruct (Hsum dir Hdir Hfiles eq_refl) as (d & Hd & Hsub & _ & _ & Hnil).
  simpl in Hd, Hsub, Hnil.
  unfold subcategory_counter, category_value.
  rewrite Hd. simpl. rewrite Hsub. simpl.
  unfold subcategory_summary. rewrite lookup_insert_eq.
  by rewrite (Hnil Hcap).
Qed.

End CycleFacts.

(** ** The claims of the specification *)

(** C1, evaluated where the code departs from it: a first run over a folder
    with one picture writes a ledger row with the picture's fingerprint; a
    second run over the same folder loads that row, and still takes the
    picture into the pool, renders it, counts it as processed and not as a
    duplicate, and logs it a second time. The keys loaded from the ledger are
    strings, the key looked up is the hash object. *)
Theorem C1_ledger_fingerprint_accepted_again :
  Pipeline.ledger
    <$> Pipeline.stitch_images Pipeline.V32 Examples.single None (1, 1) (512, 512)
  = Some Examples.single_ledger
  ∧ (λ r, Pipeline.saved (Pipeline.trace (Pipeline.final r)))
      <$> Pipeline.stitch_images Pipeline.V32 Examples.single
            Examples.single_ledger (1, 1) (512, 512)
    = Some [("Cat-main-1.png",
             Compositor.mkCanvas (512, 512) [(Pixels 1, (0, 0))])]
  ∧ (λ r, Pipeline.subcategory_counter
            (Pipeline.category_summaries (Pipeline.final r))
            "Cat" "main" "Duplicates found")
      <$> Pipeline.stitch_images Pipeline.V32 Examples.single
            Examples.single_ledger (1, 1) (512, 512)
    = Some (Some 0)
  ∧ (λ r, Pipeline.subcategory_counter
            (Pipeline.category_summaries (Pipeline.final r))
            "Cat" "main" "Processed")
      <$> Pipeline.stitch_images Pipeline.V32 Examples.single
            Examples.single_ledger (1, 1) (512, 512)
    = Some (Some 1)
  ∧ (λ r, Pipeline.category_value
            (Pipeline.category_summaries (Pipeline.final r))
            "Cat" "Duplicate files")
      <$> Pipeline.stitch_images Pipeline.V32 Examples.single
            Examples.single_ledger (1, 1) (512, 512)
    = Some (Some (Pipeline.VList []))
  ∧ Pipeline.ledger
      <$> Pipeline.stitch_images Pipeline.V32 Examples.single
            Examples.single_ledger (1, 1) (512, 512)
    = Some (Some [Ledger.header;
                  ["Cat"; "main"; "1"; "0000000000000005"; "a.png"];
                  ["Cat"; "main"; "1"; "0000000000000005"; "a.png"]]).
Proof.
  split; [vm_compute; reflexivity|].
  split; [vm_compute; reflexivity|].
  split; [vm_compute; reflexivity|].
  split; [vm_compute; reflexivity|].
  split; [vm_compute; reflexivity|].
  vm_compute; reflexivity.
Qed.








(** C5: while one subcategory is processed, the grids saved are named with
    the batch numbers 1, 2, 3, ... in this order, without gap or repetition;
    a turn of the loop either saves nothing and keeps the batch number, or
    saves one grid under the current number and, unless an exception ends
    the loop, adds one to it. *)
Theorem C5_batch_numbers_are_dense
    (version : Pipeline.Version) (grid_size image_size : Z * Z)
    (category : string) (entries : FS.Listing) (subcategory : string)
    (s : Pipeline.State) :
  (∃ o (n : nat),
     Pipeline.process_subcategory version grid_size image_size category entries
       subcategory s = Some o
     ∧ (Pipeline.saved (Pipeline.trace (Pipeline.state_of o))).*1
       = (Pipeline.saved (Pipeline.trace s)).*1
         ++ (Pipeline.stitched_image_name category subcategory
               <$> seqZ 1 (Z.of_nat n))
     ∧ (∀ dir, Pipeline.subcategory_dir entries subcategory = Some dir →
          FS.image_files dir ≠ [] →
          o = Pipeline.Returned (Pipeline.state_of o) →
          Pipeline.stitched_in_category (Pipeline.state_of o) = Z.of_nat n
          ∧ Pipeline.subcategory_counter
              (Pipeline.category_summaries (Pipeline.state_of o))
              category subcategory "Stitched batches" = Some (Z.of_nat n)))
  ∧ (∀ path dir s0,
       let f := Pipeline.cycle version grid_size image_size category subcategory
                  path dir s0 in
       let s1 := Pipeline.state_of_flow f in
       (Pipeline.saved (Pipeline.trace s1) = Pipeline.saved (Pipeline.trace s0)
        ∧ Pipeline.batch_number s1 = Pipeline.batch_number s0)
       ∨ (∃ canvas,
            Pipeline.saved (Pipeline.trace s1)
            = Pipeline.saved (Pipeline.trace s0)
              ++ [(Pipeline.stitched_image_name category subcategory
                     (Pipeline.batch_number s0), canvas)]
            ∧ (f = Pipeline.Raise s1
               ∨ Pipeline.batch_number s1 = Pipeline.batch_number s0 + 1))).
Proof.
  split.
  - destruct (PipelineFacts.process_subcategory_spec version grid_size image_size
                category entries subcategory s)
      as (o & Ho & t & n & consumed & Htr & Hsv & _ & _ & _ & _ & _ & _ & Hsum).
    exists o, n. split; [done|]. split.
    + by rewrite Htr, PipelineFacts.saved_app, fmap_app, Hsv.
    + intros dir Hdir Hfiles Hret.
      destruct (Hsum dir Hdir Hfiles Hret) as (d & Hd & Hsub & Hst & _).
      split; [done|].
      unfold Pipeline.subcategory_counter, Pipeline.category_value.
      rewrite Hd. simpl. rewrite Hsub. simpl.
      unfold Pipeline.subcategory_summary.
      rewrite lookup_insert_ne by done. rewrite lookup_insert_ne by done.
      rewrite lookup_insert_ne by done. rewrite lookup_insert_ne by done.
      rewrite lookup_insert_eq. by rewrite Hst.
  - intros path dir s0 f s1. subst f s1.
    destruct (PipelineFacts.cycle_spec version grid_size image_size category
                subcategory path dir s0) as (consumed & _ & _ & Hc).
    destruct Hc as [(_ & Htr & _ & Hbn & _)
                   |[(_ & _ & Htr & _ & Hbn)|(c & _ & _ & Htr & _ & _ & Hres)]].
    + left. split; [|done].
      by rewrite Htr, PipelineFacts.saved_app, PipelineFacts.saved_opens,
        app_nil_r.
    + left. split; [|done].
      by rewrite Htr, PipelineFacts.saved_app, PipelineFacts.saved_opens,
        app_nil_r.
    + right. exists c. split.
      * destruct (PipelineFacts.dds_events_silent version category subcategory
                    (Pipeline.batch_number s0)) as (Ds & _).
        by rewrite Htr, !PipelineFacts.saved_app, PipelineFacts.saved_opens,
          PipelineFacts.saved_save, Ds.
      * destruct Hres as [?|(_ & ? & _)]; [by left|by right].
Qed.




(** C7: a batch of exactly rows x cols images gives one canvas of size
    (cols * width, rows * height) on which the image at index i is pasted at
    column i mod cols and row i div cols, that is at pixel offset
    ((i mod cols) * width, (i div cols) * height); on a 2 x 2 grid the images
    A, B, C, D land on the cells (0,0), (0,1), (1,0), (1,1). *)
Theorem C7_stitch_places_row_major
    (rows cols width height : Z) (batch : list ImageRecord) :
  Z.of_nat (length batch) = rows * cols →
  let canvas := Compositor.stitch (rows, cols) (width, height) batch in
  Compositor.canvas_size canvas = (cols * width, rows * height)
  ∧ length (Compositor.pastes canvas) = length batch
  ∧ (∀ (i : nat) (x : ImageRecord), batch !! i = Some x →
       Compositor.pastes canvas !! i
       = Some (image x, ((Z.of_nat i `mod` cols) * width,
                         (Z.of_nat i `div` cols) * height)))
  ∧ (∀ A B C D : ImageRecord,
       Compositor.pastes
         (Compositor.stitch (2, 2) (width, height) [A; B; C; D])
       = [(image A, (0 * width, 0 * height)); (image B, (1 * width, 0 * height));
          (image C, (0 * width, 1 * height)); (image D, (1 * width, 1 * height))]).
Proof.
  intros Hlen canvas.
  assert (Compositor.py_slice_to (rows * cols) batch = batch) as Hslice.
  { unfold Compositor.py_slice_to. rewrite <- Hlen.
    destruct (0 <=? Z.of_nat (length batch)) eqn:E; [|lia].
    rewrite Nat2Z.id. by apply take_ge. }
  subst canvas. unfold Compositor.stitch. simpl. rewrite Hslice.
  split; [done|]. split; [apply length_imap|]. split.
  - intros i x Hx. rewrite list_lookup_imap, Hx. reflexivity.
  - intros A B C D. reflexivity.
Qed.

(** C7 at work: the third image of a 2 x 2 grid of 512 x 512 cells lands on
    the cell (1,0), at offset (0, 512). *)
Lemma C7_stitch_places_row_major_witness :
  Z.of_nat (length [Examples.rec_dark; Examples.rec_b; Examples.rec_a;
                    Examples.rec_light]) = 2 * 2
  ∧ Compositor.pastes
      (Compositor.stitch (2, 2) (512, 512)
         [Examples.rec_dark; Examples.rec_b; Examples.rec_a; Examples.rec_light])
      !! 2%nat
    = Some (Pixels 2, (0, 512)).
Proof.
  split; [reflexivity|].
  destruct (C7_stitch_places_row_major 2 2 512 512
              [Examples.rec_dark; Examples.rec_b; Examples.rec_a;
               Examples.rec_light] eq_refl) as (_ & _ & H & _).
  exact (H 2%nat Examples.rec_a eq_refl).
Defined.

(** C8: a file whose opening, resizing or feature extraction raises is
    counted as checked and changes nothing else: not the pool, the batch log,
    the duplicate index, the duplicate or processed counters or the summary;
    the inner loop goes on with the files that remain; no pool ever holds a
    record of that file; and a subcategory opens each of its files at most
    once, so the file is not looked at again. *)
Theorem C8_extraction_failure_is_absorbed
    (version : Pipeline.Version) (grid_size image_size : Z * Z)
    (category subcategory : string) (path : list string) (dir : FS.Listing)
    (file : string) (rest : list string) (s : Pipeline.State) :
  FS.decode dir file = None →
  let s' := Pipeline.check_one category subcategory path dir file s in
  (Pipeline.checked_in_category s' = Pipeline.checked_in_category s + 1
   ∧ Pipeline.processed_in_category s' = Pipeline.processed_in_category s
   ∧ Pipeline.duplicates_in_category s' = Pipeline.duplicates_in_category s
   ∧ Pipeline.stitched_in_category s' = Pipeline.stitched_in_category s
   ∧ Pipeline.images s' = Pipeline.images s
   ∧ Pipeline.batch_log s' = Pipeline.batch_log s
   ∧ Pipeline.log_entries s' = Pipeline.log_entries s
   ∧ Pipeline.processed_images s' = Pipeline.processed_images s
   ∧ Pipeline.category_summaries s' = Pipeline.category_summaries s
   ∧ Pipeline.trace s' = Pipeline.trace s ++ [Pipeline.EvOpen (path ++ [file])])
  ∧ (Z.of_nat (length (Pipeline.images s)) < grid_size.1 * grid_size.2 →
     Pipeline.collect grid_size category subcategory path dir (file :: rest) s
     = Pipeline.collect grid_size category subcategory path dir rest
         (Pipeline.check_one category subcategory path dir file
            (Pipeline.set_available_images rest s)))
  ∧ (∀ s0,
       Forall (λ r, filename r ≠ file)
         (Pipeline.images
            (Pipeline.collect grid_size category subcategory path dir
               (Pipeline.available_images s0)
               (Pipeline.set_images [] (Pipeline.set_batch_log [] s0)))))
  ∧ (∀ entries s0,
       Pipeline.subcategory_dir entries subcategory = Some dir →
       NoDup (FS.listdir dir) →
       ∃ o t,
         Pipeline.process_subcategory version grid_size image_size category
           entries subcategory s0 = Some o
         ∧ Pipeline.trace (Pipeline.state_of o) = Pipeline.trace s0 ++ t
         ∧ NoDup (Pipeline.opened t)).
Proof.
  intros Herr s'. subst s'.
  rewrite (CycleFacts.check_one_error category subcategory path dir file s Herr).
  split; [simpl; repeat split; done|]. split.
  { intros Hlt. simpl.
    destruct (Z.ltb_spec (Z.of_nat (length (Pipeline.images s)))
                (Pipeline.capacity grid_size)) as [_|Hge]; [done|].
    unfold Pipeline.capacity in Hge. lia. }
  split.
  { intros s0.
    destruct (CycleFacts.collect_pool grid_size category subcategory path dir
                (Pipeline.available_images s0)
                (Pipeline.set_images [] (Pipeline.set_batch_log [] s0)))
      as [Hpool _].
    eapply Forall_impl; [apply Hpool; constructor|].
    intros r Hr E. simpl in Hr. rewrite E, Herr in Hr. by destruct Hr. }
  intros entries s0 Hdir Hnd.
  destruct (PipelineFacts.process_subcategory_spec version grid_size image_size
              category entries subcategory s0)
    as (o & Ho & t & n & consumed & Htr & _ & _ & _ & _ & _ & Hop & Hfiles & _).
  exists o, t. split; [done|]. split; [done|].
  destruct (Hfiles dir Hdir) as (rest' & Hsplit).
  apply CycleFacts.image_files_NoDup in Hnd.
  rewrite Hsplit in Hnd. apply NoDup_app in Hnd as (Hc & _).
  rewrite Hop. apply NoDup_fmap; [|done].
  intros a b Hab. apply app_inj_tail in Hab. by destruct Hab.
Qed.

(** C8 at work: bad.jpg of the gallery raises and leaves the processed
    counter alone. *)
Lemma C8_extraction_failure_is_absorbed_witness :
  FS.decode Examples.gallery_cat "bad.jpg" = None
  ∧ Pipeline.processed_in_category
      (Pipeline.check_one "Cat" "main" ["Cat"] Examples.gallery_cat "bad.jpg"
         Examples.midway)
    = Pipeline.processed_in_category Examples.midway.
Proof.
  split; [reflexivity|].
  destruct (C8_extraction_failure_is_absorbed Pipeline.V32 (4, 4) (512, 512)
              "Cat" "main" ["Cat"] Examples.gallery_cat "bad.jpg" []
              Examples.midway eq_refl) as ((_ & H & _) & _).
  exact H.
Defined.

(** C9, evaluated where the code departs from it: a folder with one
    recognized picture and a 1 x 1 grid. The category counter, taken before
    the loop, is 1; the counter stored in the summary of the subcategory is
    taken from the list after the loop has emptied it, and is 0. *)
Theorem C9_images_in_folder_taken_after_the_loop :
  FS.image_files Examples.single_cat = ["a.png"]
  ∧ Pipeline.finished
      <$> Pipeline.stitch_images Pipeline.V32 Examples.single None (1, 1) (512, 512)
    = Some true
  ∧ (λ r, Pipeline.category_value
            (Pipeline.category_summaries (Pipeline.final r))
            "Cat" "Images in folder")
      <$> Pipeline.stitch_images Pipeline.V32 Examples.single None (1, 1) (512, 512)
    = Some (Some (Pipeline.VInt 1))
  ∧ (λ r, Pipeline.subcategory_counter
            (Pipeline.category_summaries (Pipeline.final r))
            "Cat" "main" "Images in folder")
      <$> Pipeline.stitch_images Pipeline.V32 Examples.single None (1, 1) (512, 512)
    = Some (Some 0).
Proof.
  split; [vm_compute; reflexivity|].
  split; [vm_compute; reflexivity|].
  split; [vm_compute; reflexivity|].
  vm_compute; reflexivity.
Qed.



(** ** Facts about the other scripts *)

Module StringFacts.

Lemma app_cons c s t : String c s +:+ t = String c (s +:+ t).
Proof. reflexivity. Qed.

Lemma app_nil_l s : "" +:+ s = s.
Proof. reflexivity. Qed.

Lemma app_nil_r s : s +:+ "" = s.
Proof. induction s as [|c s IH]; [done|]. by rewrite app_cons, IH. Qed.

Lemma app_assoc s t u : s +:+ (t +:+ u) = (s +:+ t) +:+ u.
Proof. induction s as [|c s IH]; [done|]. by rewrite !app_cons, IH. Qed.

Lemma length_app s t :
  String.length (s +:+ t) = (String.length s + String.length t)%nat.
Proof. induction s as [|c s IH]; [done|]. rewrite app_cons. simpl. by rewrite IH. Qed.

Lemma prefix_nil s : String.prefix "" s = true.
Proof. by destruct s. Qed.

Lemma prefix_cons a p b s :
  String.prefix (String a p) (String b s) = true ↔ a = b ∧ String.prefix p s = true.
Proof.
  simpl. destruct (ascii_dec a b) as [->|Hne]; [tauto|].
  split; [done|]. by intros [? _].
Qed.

Lemma prefix_app p s : String.prefix p s = true ↔ ∃ r, s = p +:+ r.
Proof.
  revert p. induction s as [|b s IH]; intros [|a p].
  - split; [by exists ""|done].
  - split; [done|]. by intros [r Hr].
  - split; [by exists (String b s)|]. intros _. apply prefix_nil.
  - rewrite prefix_cons, IH. split.
    + intros [-> [r ->]]. by exists r.
    + intros [r Hr]. rewrite app_cons in Hr. injection Hr as -> ->. eauto.
Qed.

Lemma substring_all s : substring 0 (String.length s) s = s.
Proof. induction s as [|c s IH]; [done|]. simpl. by rewrite IH. Qed.

Lemma substring_skip p s n :
  substring (String.length p + n) (String.length s) (p +:+ s)
  = substring n (String.length s) s.
Proof. induction p as [|c p IH]; [done|]. rewrite app_cons. simpl. apply IH. Qed.

Lemma substring_split s n :
  (n ≤ String.length s)%nat →
  s = substring 0 n s +:+ substring n (String.length s - n) s.
Proof.
  revert n. induction s as [|c s IH]; intros [|n] Hn; simpl in *; try lia.
  - done.
  - by rewrite substring_all.
  - rewrite app_cons. f_equal. apply IH. lia.
Qed.

Lemma endswith_app s suffix :
  FS.endswith s suffix = true ↔ ∃ p, s = p +:+ suffix.
Proof.
  unfold FS.endswith. rewrite andb_true_iff, bool_decide_eq_true, Nat.leb_le.
  split.
  - intros [Hle Hsub].
    exists (substring 0 (String.length s - String.length suffix) s).
    pose proof (substring_split s (String.length s - String.length suffix))
      as Hs.
    replace (String.length s - (String.length s - String.length suffix))%nat
      with (String.length suffix) in Hs by lia.
    rewrite Hsub in Hs. apply Hs. lia.
  - intros [p ->]. rewrite length_app. split; [lia|].
    replace (String.length p + String.length suffix - String.length suffix)%nat
      with (String.length p + 0)%nat by lia.
    rewrite substring_skip. apply substring_all.
Qed.

End StringFacts.

Module ConverterFacts.
Import FS Converter StringFacts.

(** The last [skip] characters of [".png"] are still to be passed over: the
    final [".png"] of the name is then reached with nothing pending, and is
    replaced. *)
Lemma replace_from_png_end stem skip :
  (skip ≤ 3)%nat →
  String.prefix (substring (4 - skip) skip ".png") (stem +:+ ".png") = true →
  ∃ p, replace_from ".png" ".dds" skip (stem +:+ ".png") = p +:+ ".dds".
Proof.
  revert skip. induction stem as [|c stem IH]; intros skip Hle Hp.
  - destruct skip as [|[|[|[|]]]]; try lia; try done. by exists "".
  - rewrite app_cons in *. destruct skip as [|k].
    + unfold replace_from; fold replace_from.
      destruct (String.prefix ".png" (String c (stem +:+ ".png"))) eqn:Hpre.
      * apply prefix_cons in Hpre as [_ Hpre].
        destruct (IH 3%nat) as [p Hp3]; [lia|done|].
        exists (".dds" +:+ p). simpl String.length. simpl Nat.sub.
        by rewrite Hp3, app_assoc.
      * destruct (IH 0%nat) as [p Hp0]; [lia|apply prefix_nil|].
        exists (String c p). by rewrite Hp0.
    + simpl replace_from. apply IH; [lia|].
      destruct k as [|[|[|]]]; try lia.
      * apply prefix_nil.
      * by apply prefix_cons in Hp as [_ Hp].
      * by apply prefix_cons in Hp as [_ Hp].
Qed.

Lemma output_name_dds stem :
  endswith (output_name (stem +:+ ".png")) ".dds" = true.
Proof.
  apply endswith_app. apply (replace_from_png_end stem 0); [lia|].
  apply prefix_nil.
Qed.

Lemma replace_absent old new s :
  contains old s = false → replace old new s = s.
Proof.
  unfold replace. induction s as [|c s IH]; [done|].
  intros Hc.
  change (String.prefix old (String c s) || contains old s = false) in Hc.
  apply orb_false_iff in Hc as [Hp Hc].
  unfold replace_from; fold replace_from. by rewrite Hp, IH.
Qed.

Lemma convert_all_written d files n w i o :
  (i, o) ∈ (convert_all d files n w).2 →
  (i, o) ∈ w ∨ (i ∈ files ∧ o = output_name i).
Proof.
  revert n w. induction files as [|f files IH]; intros n w; simpl; [by left|].
  destruct (convert_png_to_dds d f).
  - intros [Hw|[Hf ->]]%IH.
    + apply elem_of_app in Hw as [Hw|Hw]; [by left|].
      apply list_elem_of_singleton in Hw as [= -> ->]. right. split; [left|done].
    + right. split; [by right|done].
  - intros [Hw|[Hf ->]]%IH; [by left|]. right. split; [by right|done].
Qed.

Lemma start_conversion_written dependencies input_dir message written i o :
  start_conversion dependencies input_dir = (message, written) →
  (i, o) ∈ written →
  o = output_name i ∧ endswith (lower i) ".png" = true.
Proof.
  unfold start_conversion. destruct dependencies; simpl.
  2:{ intros [= _ <-] H. by apply elem_of_nil in H. }
  destruct input_dir as [d|].
  2:{ intros [= _ <-] H. by apply elem_of_nil in H. }
  destruct (png_files d) as [|f fs] eqn:Hfiles.
  { intros [= _ <-] H. by apply elem_of_nil in H. }
  intros Hrun Hin.
  change ((let '(n, w) := convert_all d (f :: fs) 0 [] in
           (Summary n (Z.of_nat (length (f :: fs))), w)) = (message, written))
    in Hrun.
  rewrite <- Hfiles in Hrun.
  destruct (convert_all d (png_files d) 0 []) as [n w] eqn:Hall.
  injection Hrun as _ <-.
  pose proof (convert_all_written d (png_files d) 0 [] i o) as Hw.
  rewrite Hall in Hw. destruct (Hw Hin) as [H|[Hi ->]].
  { by apply elem_of_nil in H. }
  split; [done|].
  unfold png_files in Hi. apply list_elem_of_In, filter_In in Hi as [_ Hi].
  done.
Qed.

End ConverterFacts.

Module BordersFacts.
Import Borders.

Lemma leading_spec bright n start :
  (start ≤ leading bright n start ≤ start + n)%nat
  ∧ (∀ i, (start ≤ i < leading bright n start)%nat → bright i = false)
  ∧ ((leading bright n start < start + n)%nat →
     bright (leading bright n start) = true).
Proof.
  revert start. induction n as [|n IH]; intros start; simpl.
  - repeat split; intros; lia.
  - destruct (bright start) eqn:Hb.
    + split; [lia|]. split; [intros; lia|done].
    + destruct (IH (S start)) as (H1 & H2 & H3). split; [lia|]. split.
      * intros i Hi. destruct (decide (i = start)) as [->|]; [done|].
        apply H2. lia.
      * intros. apply H3. lia.
Qed.

Lemma trailing_spec bright n :
  (trailing bright n ≤ n)%nat
  ∧ (∀ i, (trailing bright n ≤ i < n)%nat → bright i = false)
  ∧ ((0 < trailing bright n)%nat → bright (trailing bright n - 1)%nat = true).
Proof.
  induction n as [|n (H1 & H2 & H3)]; simpl.
  - repeat split; intros; lia.
  - destruct (bright n) eqn:Hb.
    + split; [lia|]. split; [intros; lia|]. intros _. simpl.
      by rewrite Nat.sub_0_r.
    + split; [lia|]. split; [|done].
      intros i Hi. destruct (decide (i = n)) as [->|]; [done|]. apply H2. lia.
Qed.

(** A bright index lies between the two edges. *)
Lemma edges_enclose bright n i :
  (i < n)%nat → bright i = true →
  (leading bright n 0 ≤ i < trailing bright n)%nat.
Proof.
  intros Hi Hb.
  destruct (leading_spec bright n 0) as (_ & Hl & _).
  destruct (trailing_spec bright n) as (_ & Ht & _).
  split.
  - destruct (decide (leading bright n 0 ≤ i)%nat); [done|].
    rewrite Hl in Hb; [done|lia].
  - destruct (decide (i < trailing bright n)%nat); [done|].
    rewrite Ht in Hb; [done|lia].
Qed.

(** Without a bright index the edges cross: the leading one is [n], the
    trailing one [0]. *)
Lemma edges_dark bright n :
  (∀ i, (i < n)%nat → bright i = false) →
  leading bright n 0 = n ∧ trailing bright n = 0%nat.
Proof.
  intros Hd.
  destruct (leading_spec bright n 0) as (Hl1 & _ & Hl3).
  destruct (trailing_spec bright n) as (Ht1 & _ & Ht3).
  split.
  - destruct (decide (leading bright n 0 = n)); [done|].
    rewrite Hd in Hl3 by lia. discriminate Hl3. lia.
  - destruct (decide (trailing bright n = 0%nat)); [done|].
    rewrite Hd in Ht3 by lia. discriminate Ht3. lia.
Qed.

Section detect_facts.
Context (height width depth : nat) (item : nat → nat → nat → Z).
Context (tolerance : Z).

Lemma row_bright_true row :
  row_bright width depth item tolerance row = true ↔
  ∃ col band, (col < width)%nat ∧ (band < depth)%nat
              ∧ tolerance < item row col band.
Proof.
  unfold row_bright. rewrite existsb_exists. split.
  - intros (col & Hcol%in_seq & (band & Hband%in_seq & Hlt%Z.ltb_lt)%existsb_exists).
    exists col, band. repeat split; lia.
  - intros (col & band & Hc & Hb & Hlt). exists col.
    split; [apply in_seq; lia|].
    apply existsb_exists. exists band. split; [apply in_seq; lia|].
    by apply Z.ltb_lt.
Qed.

Lemma col_bright_true col :
  col_bright height depth item tolerance col = true ↔
  ∃ row band, (row < height)%nat ∧ (band < depth)%nat
              ∧ tolerance < item row col band.
Proof.
  unfold col_bright. rewrite existsb_exists. split.
  - intros (row & Hrow%in_seq & (band & Hband%in_seq & Hlt%Z.ltb_lt)%existsb_exists).
    exists row, band. repeat split; lia.
  - intros (row & band & Hr & Hb & Hlt). exists row.
    split; [apply in_seq; lia|].
    apply existsb_exists. exists band. split; [apply in_seq; lia|].
    by apply Z.ltb_lt.
Qed.

Lemma mask_true row col :
  mask depth item tolerance row col = true ↔
  ∀ band, (band < depth)%nat → tolerance < item row col band.
Proof.
  unfold mask. rewrite forallb_forall. split.
  - intros H band Hb. apply Z.ltb_lt, H, in_seq. lia.
  - intros H band Hb%in_seq. apply Z.ltb_lt, H. lia.
Qed.

Lemma argwhere_elem row col :
  (row, col) ∈ argwhere height width depth item tolerance ↔
  (row < height)%nat ∧ (col < width)%nat
  ∧ mask depth item tolerance row col = true.
Proof.
  unfold argwhere. rewrite list_elem_of_bind. split.
  - intros (r & Hin & Hr).
    apply list_elem_of_In, filter_In in Hin as [Hin Hm].
    apply list_elem_of_In, list_elem_of_fmap in Hin as (c & [= -> ->] & Hc).
    apply list_elem_of_In, in_seq in Hr, Hc. simpl in Hm. repeat split; [lia..|done].
  - intros (Hr & Hc & Hm). exists row. split.
    + apply list_elem_of_In, filter_In. split; [|done].
      apply list_elem_of_In, list_elem_of_fmap. exists col. split; [done|].
      apply list_elem_of_In, in_seq. lia.
    + apply list_elem_of_In, in_seq. lia.
Qed.

End detect_facts.

(** With a row to look at, the two horizontal edges never meet. *)
Lemma edges_apart bright n :
  n ≠ 0%nat → trailing bright n ≠ leading bright n 0.
Proof.
  intros Hn. destruct (existsb bright (seq 0 n)) eqn:He.
  - apply existsb_exists in He as (i & Hi%in_seq & Hb).
    destruct (edges_enclose bright n i); [lia|done|lia].
  - assert (∀ i, (i < n)%nat → bright i = false) as Hd.
    { intros i Hi. destruct (bright i) eqn:Hb; [|done].
      assert (existsb bright (seq 0 n) = true) as Ht; [|congruence].
      apply existsb_exists. exists i. split; [apply in_seq; lia|done]. }
    destruct (edges_dark bright n Hd) as [-> ->]. lia.
Qed.

Lemma Qltb_lt x y : Qltb x y = true ↔ (x < y)%Q.
Proof. unfold Qltb. rewrite Qlt_alt. by destruct (x ?= y)%Q. Qed.

Lemma Qgtb_Qltb x y : Qgtb x y = Qltb y x.
Proof.
  unfold Qgtb, Qltb. rewrite <- (Qcompare_antisym y x).
  by destruct (y ?= x)%Q.
Qed.

(** A threshold against a ratio of integers, for a positive and for a
    negative denominator. *)
Lemma Qltb_ratio q n d :
  0 < d →
  Qltb q (inject_Z n / inject_Z d) = (Qnum q * d <? n * Z.pos (Qden q)).
Proof.
  intros Hd. destruct d as [|p|p]; try lia.
  unfold Qltb, Qcompare, Z.ltb. simpl. by rewrite Z.mul_1_r.
Qed.

Lemma ratio_Qltb q n d :
  0 < d →
  Qltb (inject_Z n / inject_Z d) q = (n * Z.pos (Qden q) <? Qnum q * d).
Proof.
  intros Hd. destruct d as [|p|p]; try lia.
  unfold Qltb, Qcompare, Z.ltb. simpl. by rewrite Z.mul_1_r.
Qed.

Lemma Qltb_ratio_neg q n d :
  d < 0 →
  Qltb q (inject_Z n / inject_Z d) = (Qnum q * (- d) <? (- n) * Z.pos (Qden q)).
Proof.
  intros Hd. destruct d as [|p|p]; try lia.
  unfold Qltb, Qcompare, Z.ltb. simpl.
  by replace (n * -1 * Z.pos (Qden q)) with (- n * Z.pos (Qden q)) by ring.
Qed.

Lemma ratio_Qltb_neg q n d :
  d < 0 →
  Qltb (inject_Z n / inject_Z d) q = ((- n) * Z.pos (Qden q) <? Qnum q * (- d)).
Proof.
  intros Hd. destruct d as [|p|p]; try lia.
  unfold Qltb, Qcompare, Z.ltb. simpl.
  by replace (n * -1 * Z.pos (Qden q)) with (- n * Z.pos (Qden q)) by ring.
Qed.

(** An integer against a fraction of an integer. *)
Lemma Qltb_scaled a b q :
  Qltb (inject_Z a) (inject_Z b * q) = (a * Z.pos (Qden q) <? b * Qnum q).
Proof.
  unfold Qltb, Qcompare, Z.ltb. simpl. by rewrite Z.mul_1_r.
Qed.

(** Of two midpoints the upper one is nearer exactly above their mean. *)
Lemma nearest_upper a m1 m2 :
  (m1 < m2)%Q →
  Qltb (Qabs (a - m2)) (Qabs (a - m1)) = Qltb ((m1 + m2) / 2) a.
Proof.
  intros Hm. apply eq_true_iff_eq. rewrite !Qltb_lt.
  assert ((m1 + m2) / 2 == (m1 + m2) * (1 # 2))%Q as ->
    by (unfold Qdiv; reflexivity).
  apply (Qabs_case (a - m2)); intros H2; apply (Qabs_case (a - m1)); intros H1;
    split; intros H; lra.
Qed.

Section dark_facts.
Context (height width depth : nat) (item : nat → nat → nat → Z).
Context (tolerance : Z).
Hypothesis dark : ∀ row col band,
  (row < height)%nat → (col < width)%nat → (band < depth)%nat →
  item row col band ≤ tolerance.

Lemma rows_dark row :
  (row < height)%nat → row_bright width depth item tolerance row = false.
Proof.
  intros Hr.
  destruct (row_bright width depth item tolerance row) eqn:Hb; [|done].
  apply row_bright_true in Hb as (c & b & Hc & Hb & Hlt).
  specialize (dark row c b Hr Hc Hb). lia.
Qed.

Lemma cols_dark col :
  (col < width)%nat → col_bright height depth item tolerance col = false.
Proof.
  intros Hc.
  destruct (col_bright height depth item tolerance col) eqn:Hb; [|done].
  apply col_bright_true in Hb as (r & b & Hr & Hb & Hlt).
  specialize (dark r col b Hr Hc Hb). lia.
Qed.
End dark_facts.

Lemma foldr_min_spec (l : list Z) d :
  foldr Z.min d l ≤ d
  ∧ (∀ x, x ∈ l → foldr Z.min d l ≤ x)
  ∧ (foldr Z.min d l = d ∨ foldr Z.min d l ∈ l).
Proof.
  induction l as [|y l (H1 & H2 & H3)]; simpl.
  - split; [lia|]. split; [|by left]. intros x Hx. by apply elem_of_nil in Hx.
  - split; [lia|]. split.
    + intros x [->|Hx]%elem_of_cons; [lia|]. specialize (H2 x Hx). lia.
    + destruct (Z.min_spec y (foldr Z.min d l)) as [[_ ->]|[_ ->]].
      * right. left.
      * destruct H3 as [H3|H3]; [by left|]. right. by right.
Qed.

Lemma foldr_max_spec (l : list Z) d :
  d ≤ foldr Z.max d l
  ∧ (∀ x, x ∈ l → x ≤ foldr Z.max d l)
  ∧ (foldr Z.max d l = d ∨ foldr Z.max d l ∈ l).
Proof.
  induction l as [|y l (H1 & H2 & H3)]; simpl.
  - split; [lia|]. split; [|by left]. intros x Hx. by apply elem_of_nil in Hx.
  - split; [lia|]. split.
    + intros x [->|Hx]%elem_of_cons; [lia|]. specialize (H2 x Hx). lia.
    + destruct (Z.max_spec y (foldr Z.max d l)) as [[_ ->]|[_ ->]].
      * destruct H3 as [H3|H3]; [by left|]. right. by right.
      * right. left.
Qed.

(** The least and the greatest coordinate are coordinates of the list, and
    bound the others. *)
Lemma bounds_spec coords x0 y0 x1 y1 :
  coords ≠ [] →
  bounds coords = (x0, y0, x1, y1) →
  (∀ row col, (row, col) ∈ coords →
     x0 ≤ Z.of_nat row < x1 ∧ y0 ≤ Z.of_nat col < y1)
  ∧ (∃ row col, (row, col) ∈ coords ∧ Z.of_nat row = x0)
  ∧ (∃ row col, (row, col) ∈ coords ∧ Z.of_nat row + 1 = x1)
  ∧ (∃ row col, (row, col) ∈ coords ∧ Z.of_nat col = y0)
  ∧ (∃ row col, (row, col) ∈ coords ∧ Z.of_nat col + 1 = y1).
Proof.
  intros Hne. unfold bounds. intros [= <- <- <- <-].
  set (rows := (λ rc : nat * nat, Z.of_nat rc.1) <$> coords).
  set (cols := (λ rc : nat * nat, Z.of_nat rc.2) <$> coords).
  assert (hd 0 rows ∈ rows) as Hhr.
  { destruct coords; [done|]. left. }
  assert (hd 0 cols ∈ cols) as Hhc.
  { destruct coords; [done|]. left. }
  destruct (foldr_min_spec rows (hd 0 rows)) as (_ & Hr1 & Hr2).
  destruct (foldr_max_spec rows (hd 0 rows)) as (_ & Hr3 & Hr4).
  destruct (foldr_min_spec cols (hd 0 cols)) as (_ & Hc1 & Hc2).
  destruct (foldr_max_spec cols (hd 0 cols)) as (_ & Hc3 & Hc4).
  assert (∀ v, v ∈ rows → ∃ row col, (row, col) ∈ coords ∧ Z.of_nat row = v)
    as Hrows.
  { intros v ([r c] & -> & Hin)%list_elem_of_fmap. by exists r, c. }
  assert (∀ v, v ∈ cols → ∃ row col, (row, col) ∈ coords ∧ Z.of_nat col = v)
    as Hcols.
  { intros v ([r c] & -> & Hin)%list_elem_of_fmap. by exists r, c. }
  split.
  { intros row col Hin.
    assert (Z.of_nat row ∈ rows) as Hr.
    { apply list_elem_of_fmap. by exists (row, col). }
    assert (Z.of_nat col ∈ cols) as Hc.
    { apply list_elem_of_fmap. by exists (row, col). }
    specialize (Hr1 _ Hr). specialize (Hr3 _ Hr).
    specialize (Hc1 _ Hc). specialize (Hc3 _ Hc). lia. }
  split.
  { apply Hrows. destruct Hr2 as [->|]; done. }
  split.
  { destruct (Hrows (foldr Z.max (hd 0 rows) rows)) as (r & c & Hin & Heq).
    { destruct Hr4 as [->|]; done. }
    exists r, c. split; [done|]. lia. }
  split.
  { apply Hcols. destruct Hc2 as [->|]; done. }
  destruct (Hcols (foldr Z.max (hd 0 cols) cols)) as (r & c & Hin & Heq).
  { destruct Hc4 as [->|]; done. }
  exists r, c. split; [done|]. lia.
Qed.

(** [cropped_image] unfolded: the box comes from the bounds of the masked
    positions. *)
Lemma cropped_image_spec height width depth item tolerance c :
  cropped_image (Array3 height width depth item) tolerance = Some c →
  ∃ x0 y0 x1 y1,
    argwhere height width depth item tolerance ≠ []
    ∧ bounds (argwhere height width depth item tolerance) = (x0, y0, x1, y1)
    ∧ ((c = Whole
        ∧ 95 * Z.of_nat width ≤ 100 * (x1 - x0)
        ∧ 95 * Z.of_nat height ≤ 100 * (y1 - y0))
       ∨ c = Crop (y0, x0, y1, x1)).
Proof.
  unfold cropped_image. simpl size. cbv iota beta.
  destruct (argwhere height width depth item tolerance) as [|rc l] eqn:Ha;
    [done|].
  rewrite <- Ha.
  destruct (bounds (argwhere height width depth item tolerance))
    as [[[x0 y0] x1] y1] eqn:Hb.
  rewrite !Qltb_scaled. simpl Qden. simpl Qnum.
  intros Hc. exists x0, y0, x1, y1. split; [by rewrite Ha|]. split; [done|].
  destruct (Z.ltb_spec ((x1 - x0) * 100) (Z.of_nat width * 95));
    destruct (Z.ltb_spec ((y1 - y0) * 100) (Z.of_nat height * 95));
    simpl in Hc; injection Hc as <-; try (by right).
  left. split; [done|]. lia.
Qed.

End BordersFacts.

Module LedgerFacts.
Import Ledger StringFacts.

Lemma digit_value_char d :
  (d < 10)%N → digit_value (pretty_N_char d) = Some (Z.of_N d).
Proof.
  intros Hd.
  assert (d = 0 ∨ d = 1 ∨ d = 2 ∨ d = 3 ∨ d = 4 ∨ d = 5 ∨ d = 6 ∨ d = 7
          ∨ d = 8 ∨ d = 9)%N as Hc by lia.
  repeat (destruct Hc as [->|Hc]; [reflexivity|]). by subst.
Qed.

(** Reading the digits that [pretty] puts in front of [s]: the value read so
    far is shifted by a power of ten [k] and the number is added. *)
Lemma digits_value_pretty_go n s :
  ∃ k, 0 < k ∧ ∀ acc b,
    digits_value (pretty_N_go n s) acc b
    = if decide (n = 0%N) then digits_value s acc b
      else digits_value s (acc * k + Z.of_N n) true.
Proof.
  revert s. induction (N.lt_wf_0 n) as [n _ IH]. intros s.
  destruct (decide (n = 0%N)) as [->|Hn].
  { exists 1. split; [lia|]. intros acc b. by rewrite pretty_N_go_0. }
  rewrite pretty_N_go_step by lia.
  destruct (IH (n `div` 10)%N) with
    (s := String (pretty_N_char (n `mod` 10)) s) as (k & Hk & Hgo).
  { apply N.div_lt; lia. }
  pose proof (N.div_mod n 10 ltac:(lia)) as Hdm.
  pose proof (N.mod_lt n 10 ltac:(lia)) as Hmod.
  assert (∀ acc b,
            digits_value (String (pretty_N_char (n `mod` 10)) s) acc b
            = digits_value s (10 * acc + Z.of_N (n `mod` 10)) true) as Hstep.
  { intros acc b. simpl. by rewrite digit_value_char. }
  destruct (decide (n `div` 10 = 0)%N) as [Hz|Hz].
  - exists 10. split; [lia|]. intros acc b. rewrite Hgo, Hstep.
    f_equal. lia.
  - exists (10 * k). split; [lia|]. intros acc b. rewrite Hgo, Hstep.
    f_equal. lia.
Qed.

Lemma digits_value_pretty n :
  (0 < n)%N → digits_value (pretty_N_go n "") 0 false = Some (Z.of_N n).
Proof.
  intros Hn. destruct (digits_value_pretty_go n "") as (k & _ & ->).
  rewrite decide_False by lia. simpl. f_equal; lia.
Qed.

Lemma digit_not_space c : is_Some (digit_value c) → is_space c = false.
Proof.
  unfold digit_value, is_space. intros [d Hd].
  destruct (48 <=? nat_of_ascii c)%nat eqn:H1; [|done].
  apply Nat.leb_le in H1.
  repeat match goal with
  | |- context [(?a <=? ?b)%nat] => destruct (Nat.leb_spec a b); try lia
  | |- context [(?a =? ?b)%nat] => destruct (Nat.eqb_spec a b); try lia
  end; done.
Qed.

Lemma pretty_go_digits n s :
  Forall (λ c, is_Some (digit_value c)) (list_ascii_of_string s) →
  Forall (λ c, is_Some (digit_value c))
    (list_ascii_of_string (pretty_N_go n s)).
Proof.
  revert s. induction (N.lt_wf_0 n) as [n _ IH]. intros s Hs.
  destruct (decide (n = 0%N)) as [->|Hn]; [by rewrite pretty_N_go_0|].
  rewrite pretty_N_go_step by lia. apply IH; [apply N.div_lt; lia|].
  simpl. constructor; [|done].
  rewrite digit_value_char; [done|]. apply N.mod_lt. lia.
Qed.

Lemma rev_app_chars s t :
  list_ascii_of_string (String.rev_app s t)
  = rev_append (list_ascii_of_string s) (list_ascii_of_string t).
Proof.
  revert t. induction s as [|c s IH]; intros t; [done|]. simpl. by rewrite IH.
Qed.

Lemma rev_app_rev s t u :
  String.rev_app (String.rev_app s t) u = String.rev_app t (s +:+ u).
Proof.
  revert t u. induction s as [|c s IH]; intros t u; [done|].
  simpl. by rewrite IH.
Qed.

Lemma rev_rev s : String.rev (String.rev s) = s.
Proof. unfold String.rev. by rewrite rev_app_rev, app_nil_r. Qed.

Lemma lstrip_all s :
  Forall (λ c, is_space c = false) (list_ascii_of_string s) → lstrip s = s.
Proof. destruct s as [|c s]; [done|]. simpl. intros [-> _]%Forall_cons. done. Qed.

(** [strip] leaves a text without white space as it is. *)
Lemma strip_all s :
  Forall (λ c, is_space c = false) (list_ascii_of_string s) → strip s = s.
Proof.
  intros Hs. unfold strip. rewrite (lstrip_all s Hs), lstrip_all.
  - apply rev_rev.
  - unfold String.rev. rewrite rev_app_chars, rev_append_rev. simpl.
    rewrite List.app_nil_r. by apply Forall_rev.
Qed.

Lemma py_int_digits s :
  s ≠ "" →
  Forall (λ c, is_Some (digit_value c)) (list_ascii_of_string s) →
  py_int s = digits_value s 0 false.
Proof.
  intros Hne Hs. unfold py_int. rewrite strip_all.
  2:{ eapply Forall_impl; [exact Hs|]. intros c. apply digit_not_space. }
  destruct s as [|c s]; [done|].
  apply Forall_cons in Hs as [[d Hd] _].
  destruct c as [[] [] [] [] [] [] [] []]; try discriminate Hd; reflexivity.
Qed.

(** [int(str(n))] is [n]. *)
Lemma py_int_pretty (z : Z) : py_int (pretty z) = Some z.
Proof.
  assert (∀ p, pretty_N_go (N.pos p) "" ≠ ""
               ∧ py_int (pretty_N_go (N.pos p) "") = Some (Z.pos p)) as Hpos.
  { intros p.
    pose proof (digits_value_pretty (N.pos p) ltac:(lia)) as Hv.
    assert (pretty_N_go (N.pos p) "" ≠ "") as Hne.
    { intros Heq. by rewrite Heq in Hv. }
    split; [done|]. rewrite py_int_digits; [done..|].
    apply pretty_go_digits. constructor. }
  destruct z as [|p|p].
  - reflexivity.
  - apply Hpos.
  - change (pretty (Z.neg p)) with ("-" +:+ pretty_N_go (N.pos p) "").
    unfold py_int. rewrite strip_all.
    + rewrite app_cons, app_nil_l.
      by rewrite (digits_value_pretty (N.pos p)) by lia.
    + rewrite app_cons, app_nil_l. simpl. constructor; [done|].
      eapply Forall_impl; [apply pretty_go_digits; constructor|].
      intros c. apply digit_not_space.
Qed.

Lemma load_rows_app a b m :
  load_rows (a ++ b) m = load_rows a m ≫= load_rows b.
Proof.
  revert m. induction a as [|row a IH]; intros m; [done|]. simpl.
  destruct (load_row row m); [apply IH|done].
Qed.

Lemma load_rows_entries entries m :
  load_rows (row_of_entry <$> entries) m
  = Some (foldl (λ m e, <[KStr (e_hash e) := e_batch_number e]> m) m entries).
Proof.
  revert m. induction entries as [|e entries IH]; intros m; [done|].
  simpl. unfold load_row. simpl. rewrite py_int_pretty. apply IH.
Qed.

End LedgerFacts.

Module WorkersFacts.
Import FS Ledger Pipeline Workers.

(** The loop sorts the files into those that decode to something new and
    those whose hash is a key of the index. *)
Lemma gather_spec dir processed completed images duplicates :
  gather dir processed completed images duplicates
  = (images
     ++ omap (λ f, d ← decode dir f;
                   if bool_decide (is_Some (processed !! KHash (d_hash d)))
                   then None else Some (record_of d f)) completed,
     duplicates
     ++ List.filter
          (λ f, match decode dir f with
                | Some d => bool_decide (is_Some (processed !! KHash (d_hash d)))
                | None => false
                end) completed).
Proof.
  revert images duplicates.
  induction completed as [|f completed IH]; intros images duplicates; simpl.
  { by rewrite !app_nil_r. }
  unfold process_image. destruct (decode dir f) as [d|]; simpl; [|apply IH].
  case_bool_decide; simpl; rewrite IH, <- ?app_assoc; done.
Qed.

End WorkersFacts.

Module SummaryFacts.
Import FS Ledger Compositor Pipeline PipelineFacts.

#[local] Arguments cycles : simpl never.

(** A subcategory with images that is worked through to its end, with a grid
    of at least one cell: what is opened, what is saved, and what the
    counters hold when the summary is stored. *)
Lemma process_subcategory_counts version grid_size image_size category entries
    sub dir s s' :
  process_subcategory version grid_size image_size category entries sub s
  = Some (Returned s') →
  subcategory_dir entries sub = Some dir →
  image_files dir ≠ [] →
  0 < capacity grid_size →
  ∃ t (n : nat) d,
    trace s' = trace s ++ EvListdir (subcategory_path_of category sub) :: t
    ∧ opened t = (λ f, subcategory_path_of category sub ++ [f]) <$> image_files dir
    ∧ (saved t).*1 = batch_names category sub 1 n
    ∧ category_summaries s' !! category = Some d
    ∧ d !! sub = Some (VDict (subcategory_summary s'))
    ∧ available_images s' = []
    ∧ checked_in_category s' = Z.of_nat (length (image_files dir))
    ∧ stitched_in_category s' = Z.of_nat n
    ∧ processed_in_category s' = capacity grid_size * Z.of_nat n.
Proof.
  intros Hrun Hdir Hfiles Hcap. unfold process_subcategory in Hrun.
  rewrite Hdir in Hrun. simpl in Hrun.
  destruct (image_files dir) as [|f0 fs] eqn:Hf; [done|].
  rewrite <- Hf in *. unfold try_summaries in Hrun at 1. simpl in Hrun.
  destruct (add_counter category "Images in folder" _ _) as [cs0|]; [|done].
  match type of Hrun with
  | context [cycles ?v ?g ?i ?c ?sb ?p ?d ?fuel ?st] =>
      destruct (cycles v g i c sb p d fuel st) as [o|] eqn:Ho; [|done];
      destruct (cycles_spec v g i c sb p d fuel st o Ho)
        as (consumed & t & n & Hav & Htr & Hop & Hsv & _ & _ & _
            & _ & _ & Hchk & Hret)
  end.
  simpl in Hav, Htr, Hchk, Hret, Hsv.
  destruct o as [s1|s1]; [|done]. simpl in *.
  destruct (Hret eq_refl) as (_ & Hst & Hpr & Hnil).
  specialize (Hnil Hcap). rewrite Hnil, app_nil_r in Hav. subst consumed.
  unfold try_summaries in Hrun.
  destruct (add_counter category "Checked" _ _) as [cs1|]; simpl in Hrun; [|done].
  destruct (add_counter category "Duplicates found" _ _) as [cs2|];
    simpl in Hrun; [|done].
  destruct (add_counter category "Processed" _ _) as [cs3|];
    simpl in Hrun; [|done].
  unfold set_subcategory in Hrun.
  destruct (cs3 !! category) as [d3|] eqn:Hd3; simpl in Hrun; [|done].
  injection Hrun as <-.
  exists t, n. eexists. simpl.
  split; [by rewrite Htr, <- app_assoc|]. split; [done|]. split; [done|].
  split; [apply lookup_insert_eq|]. split; [apply lookup_insert_eq|].
  split; [done|]. split; [lia|]. split; [lia|]. lia.
Qed.

End SummaryFacts.

(** ** The run and the string keys of the index *)

Module IndexFacts.
Import FS Ledger Compositor Pipeline Index.

#[local] Arguments cycles : simpl never.




Lemma hash_keys_empty : hash_keys ∅ = ∅.
Proof. unfold hash_keys. apply map_filter_empty. Qed.

Section subcategory_visible.
Context (version : Version) (grid_size image_size : Z * Z).
Context (category subcategory : string).
Context (path : list string) (dir : Listing).






End subcategory_visible.

Section category_visible.
Context (version : Version) (grid_size image_size : Z * Z).






End category_visible.

End IndexFacts.

(** ** What every turn of the loop keeps, the run keeps *)

Module InvariantFacts.
Import FS Ledger Compositor Pipeline.

#[local] Arguments cycles : simpl never.

Section invariant.
Context (version : Version) (grid_size image_size : Z * Z).
(** A property of the log and the index. *)
Context (P : list LogEntry → gmap Key Z → Prop).
Hypothesis cycle_keeps : ∀ category subcategory path dir s,
  P (log_entries s) (processed_images s) →
  P (log_entries
       (state_of_flow (cycle version grid_size image_size category
                         subcategory path dir s)))
    (processed_images
       (state_of_flow (cycle version grid_size image_size category
                         subcategory path dir s))).

Lemma cycles_keep category subcategory path dir fuel s o :
  cycles version grid_size image_size category subcategory path dir fuel s
  = Some o →
  P (log_entries s) (processed_images s) →
  P (log_entries (state_of o)) (processed_images (state_of o)).
Proof.
  revert s. induction fuel as [|fuel IH]; intros s; unfold cycles; fold cycles.
  - destruct (available_images s); [|done]. by intros [= <-].
  - destruct (available_images s); [by intros [= <-]|].
    intros Hrun HP.
    pose proof (cycle_keeps category subcategory path dir s HP) as HP'.
    destruct (cycle version grid_size image_size category subcategory path
                dir s) as [s1|s1|s1]; simpl in HP'.
    + by apply (IH s1).
    + by injection Hrun as <-.
    + by injection Hrun as <-.
Qed.

Lemma try_summaries_keep f s k o :
  try_summaries f s k = Some o →
  P (log_entries s) (processed_images s) →
  (∀ s0 o0, k s0 = Some o0 →
     P (log_entries s0) (processed_images s0) →
     P (log_entries (state_of o0)) (processed_images (state_of o0))) →
  P (log_entries (state_of o)) (processed_images (state_of o)).
Proof.
  unfold try_summaries. intros Hrun HP Hk.
  destruct (f (category_summaries s)) as [cs|].
  - by apply (Hk _ _ Hrun).
  - by injection Hrun as <-.
Qed.

Lemma process_subcategory_keeps category entries sub s o :
  process_subcategory version grid_size image_size category entries sub s
  = Some o →
  P (log_entries s) (processed_images s) →
  P (log_entries (state_of o)) (processed_images (state_of o)).
Proof.
  unfold process_subcategory. intros Hrun HP.
  destruct (subcategory_dir entries sub) as [dir|];
    [|by injection Hrun as <-].
  cbv zeta in Hrun.
  change (available_images
            (set_available_images (image_files dir)
               (emit (EvListdir (subcategory_path_of category sub)) s)))
    with (image_files dir) in Hrun.
  destruct (image_files dir) as [|f0 fs] eqn:Hf; [by injection Hrun as <-|].
  apply (try_summaries_keep _ _ _ _ Hrun); [done|].
  clear Hrun. intros s0 o0 Hrun HP0.
  match type of Hrun with
  | context [cycles ?v ?g ?i ?c ?sb ?p ?d ?fuel ?st] =>
      destruct (cycles v g i c sb p d fuel st) as [[s1|s1]|] eqn:Hc;
        [| |done];
      pose proof (cycles_keep c sb p d fuel st _ Hc HP0) as HP1
  end; simpl in HP1.
  2:{ by injection Hrun as <-. }
  apply (try_summaries_keep _ _ _ _ Hrun); [done|].
  clear Hrun. intros s2 o2 Hrun HP2.
  apply (try_summaries_keep _ _ _ _ Hrun); [done|].
  clear Hrun. intros s3 o3 Hrun HP3.
  apply (try_summaries_keep _ _ _ _ Hrun); [done|].
  clear Hrun. intros s4 o4 Hrun HP4.
  apply (try_summaries_keep _ _ _ _ Hrun); [done|].
  clear Hrun. intros s5 o5 Hrun HP5. by injection Hrun as <-.
Qed.

Lemma for_subcategories_keep category entries subs s o :
  for_subcategories version grid_size image_size category entries subs s
  = Some o →
  P (log_entries s) (processed_images s) →
  P (log_entries (state_of o)) (processed_images (state_of o)).
Proof.
  revert s. induction subs as [|sub subs IH]; intros s; simpl.
  { by intros [= <-]. }
  intros Hrun HP.
  destruct (process_subcategory version grid_size image_size category entries
              sub s) as [[s1|s1]|] eqn:Hs; [| |done].
  - apply (IH s1 Hrun). apply (process_subcategory_keeps _ _ _ _ _ Hs HP).
  - injection Hrun as <-. apply (process_subcategory_keeps _ _ _ _ _ Hs HP).
Qed.

Lemma process_category_keeps input_dir category s o :
  process_category version input_dir grid_size image_size category s = Some o →
  P (log_entries s) (processed_images s) →
  P (log_entries (state_of o)) (processed_images (state_of o)).
Proof.
  unfold process_category. intros Hrun HP.
  destruct (child input_dir category) as [[c|entries]|];
    [by injection Hrun as <-| |by injection Hrun as <-].
  by apply (for_subcategories_keep _ _ _ _ _ Hrun).
Qed.

Lemma for_categories_keep input_dir categories s o :
  for_categories version input_dir grid_size image_size categories s = Some o →
  P (log_entries s) (processed_images s) →
  P (log_entries (state_of o)) (processed_images (state_of o)).
Proof.
  revert s. induction categories as [|c cs IH]; intros s; simpl.
  { by intros [= <-]. }
  intros Hrun HP.
  destruct (process_category version input_dir grid_size image_size c s)
    as [[s1|s1]|] eqn:Hs; [| |done].
  - apply (IH s1 Hrun). apply (process_category_keeps _ _ _ _ Hs HP).
  - injection Hrun as <-. apply (process_category_keeps _ _ _ _ Hs HP).
Qed.

(** What holds of the empty log and the loaded index, and is kept by every
    turn of the loop, holds when the run is over. *)
Lemma stitch_images_keeps input_dir log_csv r :
  stitch_images version input_dir log_csv grid_size image_size = Some r →
  (∀ m, load_processed_images log_csv = Some m → P [] m) →
  P [] ∅ →
  P (log_entries (final r)) (processed_images (final r)).
Proof.
  unfold stitch_images. intros Hrun Hm H0.
  destruct (load_processed_images log_csv) as [m|];
    [|by injection Hrun as <-].
  destruct (for_categories version input_dir grid_size image_size
              (directories input_dir) (emit (EvListdir []) (initial_state m)))
    as [[s|s]|] eqn:Hs; [| |done].
  - injection Hrun as <-. simpl.
    apply (for_categories_keep _ _ _ _ Hs). simpl. by apply Hm.
  - injection Hrun as <-. simpl.
    apply (for_categories_keep _ _ _ _ Hs). simpl. by apply Hm.
Qed.

End invariant.

Section fresh_hashes.
Context (version : Version) (grid_size image_size : Z * Z).
Context (category subcategory : string).
Context (path : list string) (dir : Listing).

(** While a pool is collected, the hashes of the entries logged and pending
    are pairwise different, and all are keys of the index. *)
Lemma check_one_fresh f s hs :
  NoDup hs →
  e_hash <$> (log_entries s ++ batch_log s) = str_of_hash <$> hs →
  (∀ h, h ∈ hs → is_Some (processed_images s !! KHash h)) →
  ∃ hs',
    NoDup hs'
    ∧ e_hash <$> (log_entries (check_one category subcategory path dir f s)
                  ++ batch_log (check_one category subcategory path dir f s))
      = str_of_hash <$> hs'
    ∧ (∀ h, h ∈ hs' →
         is_Some (processed_images
                    (check_one category subcategory path dir f s)
                  !! KHash h)).
Proof.
  intros Hnd Heq Hin. unfold check_one. cbv zeta.
  destruct (decode dir f) as [d|]; [|by exists hs].
  case_bool_decide as Hdup.
  - exists hs. by destruct (append_duplicate _ _ _).
  - exists (hs ++ [d_hash d]). simpl. split; [|split].
    + apply NoDup_app. split; [done|]. split; [|apply NoDup_singleton].
      intros h Hh ->%list_elem_of_singleton. apply Hdup.
      destruct s. apply (Hin _ Hh).
    + destruct s. simpl in *.
      by rewrite app_assoc, fmap_app, Heq, fmap_app.
    + destruct s. simpl in *. intros h Hh.
      destruct (decide (h = d_hash d)) as [->|Hne].
      { rewrite lookup_insert_eq. by eexists. }
      rewrite lookup_insert_ne by congruence.
      apply elem_of_app in Hh as [Hh|Hh]; [by apply Hin|].
      by apply list_elem_of_singleton in Hh.
Qed.

Lemma collect_fresh avail s hs :
  NoDup hs →
  e_hash <$> (log_entries s ++ batch_log s) = str_of_hash <$> hs →
  (∀ h, h ∈ hs → is_Some (processed_images s !! KHash h)) →
  ∃ hs',
    NoDup hs'
    ∧ e_hash <$> (log_entries
                    (collect grid_size category subcategory path dir avail s)
                  ++ batch_log
                       (collect grid_size category subcategory path dir avail s))
      = str_of_hash <$> hs'
    ∧ (∀ h, h ∈ hs' →
         is_Some (processed_images
                    (collect grid_size category subcategory path dir avail s)
                  !! KHash h)).
Proof.
  revert s hs. induction avail as [|f rest IH]; intros s hs Hnd Heq Hin; simpl.
  { exists hs. by destruct s. }
  destruct (_ <? _); [|exists hs; by destruct s].
  destruct (check_one_fresh f (set_available_images rest s) hs)
    as (hs1 & Hnd1 & Heq1 & Hin1); [done|by destruct s|by destruct s|].
  by apply (IH _ hs1).
Qed.

Lemma cycle_fresh s :
  (∃ hs, NoDup hs
         ∧ e_hash <$> log_entries s = str_of_hash <$> hs
         ∧ ∀ h, h ∈ hs → is_Some (processed_images s !! KHash h)) →
  ∃ hs,
    NoDup hs
    ∧ e_hash
        <$> log_entries
              (state_of_flow (cycle version grid_size image_size category
                                subcategory path dir s))
      = str_of_hash <$> hs
    ∧ ∀ h, h ∈ hs →
        is_Some (processed_images
                   (state_of_flow (cycle version grid_size image_size category
                                     subcategory path dir s))
                 !! KHash h).
Proof.
  intros (hs & Hnd & Heq & Hin). rewrite CycleFacts.cycle_eq. cbv zeta.
  destruct (collect_fresh (available_images s)
              (set_images [] (set_batch_log [] s)) hs)
    as (hs1 & Hnd1 & Heq1 & Hin1).
  { done. }
  { destruct s. simpl in *. by rewrite app_nil_r. }
  { by destruct s. }
  set (s1 := collect grid_size category subcategory path dir
               (available_images s) (set_images [] (set_batch_log [] s))) in *.
  assert (∃ hs0, NoDup hs0
                 ∧ e_hash <$> log_entries s1 = str_of_hash <$> hs0
                 ∧ ∀ h, h ∈ hs0 → is_Some (processed_images s1 !! KHash h))
    as Hshort.
  { rewrite fmap_app in Heq1. symmetry in Heq1.
    apply fmap_app_inv in Heq1 as (h1 & h2 & E1 & E2 & ->).
    exists h1. apply NoDup_app in Hnd1 as (Hnd1 & _ & _).
    split; [done|]. split; [done|]. intros h Hh. apply Hin1, elem_of_app.
    by left. }
  destruct (images s1) as [|x l] eqn:Him; [exact Hshort|].
  destruct (_ <? _).
  { destruct s1. exact Hshort. }
  unfold render. destruct (canvas_refused grid_size image_size).
  { destruct s1. exact Hshort. }
  exists hs1. split; [done|].
  destruct s1, version; simpl in *;
    destruct (add_counter _ _ _ _); simpl; done.
Qed.

End fresh_hashes.

End InvariantFacts.

(** ** Further properties of the scripts *)

(** X1 (Convert to DDS, [start_conversion]): a converted file whose name ends
    in [.png] is written under a name that ends in [.dds]. *)
Theorem X1_png_name_gets_dds_name dependencies input_dir message written
    png_file name :
  Converter.start_conversion dependencies input_dir = (message, written) →
  (png_file, name) ∈ written →
  FS.endswith png_file ".png" = true →
  FS.endswith name ".dds" = true.
Proof.
  intros Hrun Hin Hpng.
  destruct (ConverterFacts.start_conversion_written _ _ _ _ _ _ Hrun Hin)
    as [-> _].
  apply StringFacts.endswith_app in Hpng as [stem ->].
  apply ConverterFacts.output_name_dds.
Qed.

(** X1 at work on a directory of two pictures. *)
Lemma X1_png_name_gets_dds_name_witness :
  Converter.start_conversion true (Some Examples.pair_cat)
  = (Converter.Summary 2 2, [("a.png", "a.dds"); ("b.png", "b.dds")])
  ∧ FS.endswith "a.dds" ".dds" = true.
Proof.
  split; [reflexivity|].
  apply (X1_png_name_gets_dds_name true (Some Examples.pair_cat)
           (Converter.Summary 2 2) [("a.png", "a.dds"); ("b.png", "b.dds")]
           "a.png" "a.dds" eq_refl); [left|reflexivity].
Defined.

(** X2 (Convert to DDS, [start_conversion]): the files are chosen without
    regard to case, the extension is replaced with regard to it.  A converted
    file whose name holds no lower-case [.png] is written under its own
    name. *)
Theorem X2_upper_case_name_is_kept dependencies input_dir message written
    png_file name :
  Converter.start_conversion dependencies input_dir = (message, written) →
  (png_file, name) ∈ written →
  Converter.contains ".png" png_file = false →
  name = png_file ∧ FS.endswith (FS.lower name) ".png" = true.
Proof.
  intros Hrun Hin Hno.
  destruct (ConverterFacts.start_conversion_written _ _ _ _ _ _ Hrun Hin)
    as [-> Hsel].
  unfold Converter.output_name.
  by rewrite (ConverterFacts.replace_absent _ _ _ Hno).
Qed.

(** X2 at work: [b.PNG] is converted into a file named [b.PNG]. *)
Lemma X2_upper_case_name_is_kept_witness :
  Converter.start_conversion true (Some Examples.gallery_cat)
  = (Converter.Summary 2 2, [("a.png", "a.dds"); ("b.PNG", "b.PNG")])
  ∧ "b.PNG" = "b.PNG" ∧ FS.endswith (FS.lower "b.PNG") ".png" = true.
Proof.
  split; [reflexivity|].
  apply (X2_upper_case_name_is_kept true (Some Examples.gallery_cat)
           (Converter.Summary 2 2) [("a.png", "a.dds"); ("b.PNG", "b.PNG")]
           "b.PNG" "b.PNG" eq_refl); [right; left|reflexivity].
Defined.

(** X3 ([detect_borders]): every sample above the tolerance lies inside the
    box returned: its row in [top, bottom), its column in [left, right). *)
Theorem X3_detect_borders_encloses_content height width depth item tolerance
    left_ top right_ bottom row col band :
  Borders.detect_borders (Borders.Array3 height width depth item) tolerance
  = Some (left_, top, right_, bottom) →
  (row < height)%nat → (col < width)%nat → (band < depth)%nat →
  tolerance < item row col band →
  top ≤ Z.of_nat row < bottom ∧ left_ ≤ Z.of_nat col < right_.
Proof.
  intros [= <- <- <- <-] Hr Hc Hb Hlt.
  destruct (BordersFacts.edges_enclose
              (Borders.row_bright width depth item tolerance) height row Hr).
  { apply BordersFacts.row_bright_true. by exists col, band. }
  destruct (BordersFacts.edges_enclose
              (Borders.col_bright height depth item tolerance) width col Hc).
  { apply BordersFacts.col_bright_true. by exists row, band. }
  lia.
Qed.

(** X3 at work on the framed block. *)
Lemma X3_detect_borders_encloses_content_witness :
  Borders.detect_borders Pictures.framed 5 = Some (1, 1, 4, 3)
  ∧ (1 ≤ Z.of_nat 2 < 3 ∧ 1 ≤ Z.of_nat 3 < 4).
Proof.
  split; [reflexivity|].
  apply (X3_detect_borders_encloses_content 4 5 3 Pictures.framed_item 5
           1 1 4 3 2 3 0 eq_refl);
    [lia|lia|lia|reflexivity].
Defined.

(** X4 ([detect_borders]): when some sample is above the tolerance, the box
    is tight: its first and last row and its first and last column each hold
    a sample above the tolerance, and it lies within the picture. *)
Theorem X4_detect_borders_box_is_tight height width depth item tolerance
    left_ top right_ bottom row col band :
  Borders.detect_borders (Borders.Array3 height width depth item) tolerance
  = Some (left_, top, right_, bottom) →
  (row < height)%nat → (col < width)%nat → (band < depth)%nat →
  tolerance < item row col band →
  (0 ≤ top < bottom ∧ bottom ≤ Z.of_nat height)
  ∧ (0 ≤ left_ < right_ ∧ right_ ≤ Z.of_nat width)
  ∧ Borders.row_bright width depth item tolerance (Z.to_nat top) = true
  ∧ Borders.row_bright width depth item tolerance (Z.to_nat (bottom - 1)) = true
  ∧ Borders.col_bright height depth item tolerance (Z.to_nat left_) = true
  ∧ Borders.col_bright height depth item tolerance (Z.to_nat (right_ - 1)) = true.
Proof.
  intros [= <- <- <- <-] Hr Hc Hb Hlt.
  set (rb := Borders.row_bright width depth item tolerance).
  set (cb := Borders.col_bright height depth item tolerance).
  destruct (BordersFacts.edges_enclose rb height row Hr) as [Ht1 Ht2].
  { apply BordersFacts.row_bright_true. by exists col, band. }
  destruct (BordersFacts.edges_enclose cb width col Hc) as [Hl1 Hl2].
  { apply BordersFacts.col_bright_true. by exists row, band. }
  destruct (BordersFacts.leading_spec rb height 0) as (_ & _ & Hlr).
  destruct (BordersFacts.trailing_spec rb height) as (Htr1 & _ & Htr).
  destruct (BordersFacts.leading_spec cb width 0) as (_ & _ & Hlc).
  destruct (BordersFacts.trailing_spec cb width) as (Htc1 & _ & Htc).
  split; [lia|]. split; [lia|].
  rewrite !Nat2Z.id.
  replace (Z.to_nat (Z.of_nat (Borders.trailing rb height) - 1))
    with (Borders.trailing rb height - 1)%nat by lia.
  replace (Z.to_nat (Z.of_nat (Borders.trailing cb width) - 1))
    with (Borders.trailing cb width - 1)%nat by lia.
  split; [apply Hlr; lia|]. split; [apply Htr; lia|].
  split; [apply Hlc; lia|]. apply Htc. lia.
Qed.

(** X4 at work on the framed block. *)
Lemma X4_detect_borders_box_is_tight_witness :
  Borders.detect_borders Pictures.framed 5 = Some (1, 1, 4, 3)
  ∧ Borders.row_bright 5 3 Pictures.framed_item 5 (Z.to_nat 1) = true.
Proof.
  split; [reflexivity|].
  destruct (X4_detect_borders_box_is_tight 4 5 3 Pictures.framed_item 5
              1 1 4 3 2 3 0 eq_refl)
    as (_ & _ & H & _); [lia|lia|lia|reflexivity|].
  exact H.
Defined.

(** X5 ([detect_borders]): a picture with no sample above the tolerance gives
    the crossed box [(width, height, 0, 0)], whose right edge lies left of
    its left edge and whose bottom lies above its top. *)
Theorem X5_detect_borders_dark_picture height width depth item tolerance :
  (∀ row col band, (row < height)%nat → (col < width)%nat →
     (band < depth)%nat → item row col band ≤ tolerance) →
  Borders.detect_borders (Borders.Array3 height width depth item) tolerance
  = Some (Z.of_nat width, Z.of_nat height, 0, 0).
Proof.
  intros Hdark. unfold Borders.detect_borders.
  destruct (BordersFacts.edges_dark
              (Borders.row_bright width depth item tolerance) height)
    as [-> ->].
  { intros i Hi. by apply (BordersFacts.rows_dark height width depth item _ Hdark). }
  destruct (BordersFacts.edges_dark
              (Borders.col_bright height depth item tolerance) width)
    as [-> ->]; [|done].
  intros i Hi.
  by apply (BordersFacts.cols_dark height width depth item _ Hdark).
Qed.

(** X5 at work on the black picture. *)
Lemma X5_detect_borders_dark_picture_witness :
  Borders.detect_borders Pictures.black 5 = Some (3, 2, 0, 0).
Proof.
  apply (X5_detect_borders_dark_picture 2 3 3 Pictures.black_item 5).
  intros. unfold Pictures.black_item. lia.
Defined.

(** X6 ([analyze_image]): a description is returned exactly for a picture
    that opens, has several bands, and has at least one row.  The bounding box
    of such a picture never has height zero, so the second division never
    fails. *)
Theorem X6_analyze_image_describes_every_colour_picture filename opened :
  is_Some (Borders.analyze_image filename opened) ↔
  ∃ p height width depth item,
    opened = Some p
    ∧ Borders.convert_rgb p = Borders.Array3 height width depth item
    ∧ height ≠ 0%nat.
Proof.
  unfold Borders.analyze_image. split.
  - destruct opened as [p|]; [|by intros [? ?]].
    destruct (Borders.convert_rgb p) as [h w it|h w d it] eqn:Hc; simpl.
    + case_bool_decide; by intros [? ?].
    + case_bool_decide; [by intros [? ?]|]. intros _.
      exists p, h, w, d, it. repeat split; [done|lia].
  - intros (p & h & w & d & it & -> & Hc & Hh). rewrite Hc. simpl.
    rewrite bool_decide_false by lia.
    case_bool_decide as Hz; [|done]. exfalso.
    apply (BordersFacts.edges_apart (Borders.row_bright w d it 5) h Hh). lia.
Qed.

(** X7 ([analyze_image]): a picture with no sample above the tolerance 5 is
    described by the crossed box of [detect_borders]: a bounding box of
    negative width and height, significant borders, and the category that
    the aspect ratio of the whole frame gives. *)
Theorem X7_analyze_image_dark_picture filename p height width depth item :
  Borders.convert_rgb p = Borders.Array3 height width depth item →
  height ≠ 0%nat →
  (∀ row col band, (row < height)%nat → (col < width)%nat →
     (band < depth)%nat → item row col band ≤ 5) →
  ∃ category,
    Borders.analyze_image filename (Some p)
    = Some (Borders.mkDescription filename
              (Z.of_nat width, Z.of_nat height)
              (Z.of_nat width, Z.of_nat height, 0, 0)
              (- Z.of_nat width, - Z.of_nat height) true category)
    ∧ (2 * Z.of_nat height < Z.of_nat width → category = "extra_wide")
    ∧ (Z.of_nat height < Z.of_nat width ≤ 2 * Z.of_nat height →
       category = "landscape")
    ∧ (2 * Z.of_nat width < Z.of_nat height → category = "extra_tall")
    ∧ (Z.of_nat width ≤ Z.of_nat height ≤ 2 * Z.of_nat width →
       category = "portrait").
Proof.
  intros Hc Hh Hdark. unfold Borders.analyze_image. rewrite Hc.
  unfold Borders.detect_borders. simpl Borders.size. cbv iota beta.
  rewrite bool_decide_false by lia.
  destruct (BordersFacts.edges_dark
              (Borders.row_bright width depth item 5) height)
    as [-> ->].
  { intros i Hi. by apply (BordersFacts.rows_dark height width depth item _ Hdark). }
  destruct (BordersFacts.edges_dark
              (Borders.col_bright height depth item 5) width)
    as [-> ->].
  { intros i Hi. by apply (BordersFacts.cols_dark height width depth item _ Hdark). }
  change (Z.of_nat 0) with 0. rewrite !Z.sub_0_l.
  rewrite bool_decide_false by lia.
  rewrite !BordersFacts.Qgtb_Qltb.
  rewrite !BordersFacts.Qltb_ratio_neg, BordersFacts.ratio_Qltb_neg by lia.
  rewrite !BordersFacts.Qltb_scaled.
  simpl Qnum. simpl Qden. rewrite !Z.opp_involutive, ?Z.sub_0_l.
  match goal with
  | |- context [?a || ?b] =>
      assert (a || b = true) as ->
        by (apply orb_true_iff; right; apply Z.ltb_lt; lia)
  end.
  eexists. split; [reflexivity|].
  destruct (Z.ltb_spec (2 * Z.of_nat height) (Z.of_nat width * 1));
    [repeat split; intros; (done || lia)|].
  destruct (Z.ltb_spec (1 * Z.of_nat height) (Z.of_nat width * 1));
    [repeat split; intros; (done || lia)|].
  destruct (Z.ltb_spec (Z.of_nat width * 2) (1 * Z.of_nat height));
    repeat split; intros; (done || lia).
Qed.

(** X7 at work on the black picture of two rows and three columns. *)
Lemma X7_analyze_image_dark_picture_witness :
  ∃ category,
    Borders.analyze_image "n.png" (Some (Borders.mkPicture "RGB" Pictures.black))
    = Some (Borders.mkDescription "n.png" (3, 2) (3, 2, 0, 0) (-3, -2) true
              category).
Proof.
  destruct (X7_analyze_image_dark_picture "n.png"
              (Borders.mkPicture "RGB" Pictures.black) 2 3 3
              Pictures.black_item eq_refl) as (category & H & _).
  - lia.
  - intros. unfold Pictures.black_item. lia.
  - by exists category.
Defined.

(** X8 ([categorize_image]): choosing the nearest midpoint cuts the aspect
    ratios width / height into five ranges, at 3/4, 19/20, 11/8 and 2; a
    ratio on a cut goes to the lower range. *)
Theorem X8_categorize_image_ranges width height :
  0 < height →
  ∃ category,
    Borders.categorize_image (width, height) = Some category
    ∧ (4 * width ≤ 3 * height → category = "extra_tall")
    ∧ (3 * height < 4 * width → 20 * width ≤ 19 * height →
       category = "portrait")
    ∧ (19 * height < 20 * width → 8 * width ≤ 11 * height →
       category = "square")
    ∧ (11 * height < 8 * width → width ≤ 2 * height → category = "landscape")
    ∧ (2 * height < width → category = "extra_wide").
Proof.
  intros Hh. unfold Borders.categorize_image, Borders.categories.
  rewrite bool_decide_false by lia.
  remember (inject_Z width / inject_Z height)%Q as a eqn:Ha.
  cbn [Borders.py_min_by fst snd].
  rewrite !BordersFacts.nearest_upper by reflexivity.
  subst a. rewrite !BordersFacts.Qltb_ratio by lia.
  repeat match goal with
  | |- context [Qnum ?q] =>
      let v := eval vm_compute in (Qnum q) in change (Qnum q) with v
  | |- context [Qden ?q] =>
      let v := eval vm_compute in (Qden q) in change (Qden q) with v
  end.
  repeat match goal with
  | |- context [Z.ltb ?x ?y] => destruct (Z.ltb_spec x y)
  end;
    (eexists; split; [reflexivity|]; repeat split; intros; (done || lia)).
Qed.

(** X8 at work: a frame of 100 by 100 is a square, one of 95 by 100 a
    portrait. *)
Lemma X8_categorize_image_ranges_witness :
  ∃ category, Borders.categorize_image (95, 100) = Some category
              ∧ category = "portrait".
Proof.
  destruct (X8_categorize_image_ranges 95 100) as (c & H & _ & Hp & _);
    [lia|].
  exists c. split; [exact H|]. apply Hp; lia.
Defined.

(** X9 ([remove_black_borders_and_resize]): the test that skips the crop
    compares the extent of the content along the rows with the width of the
    picture, and the extent along the columns with its height.  The crop is
    therefore skipped only for a picture that is nearly square: each side at
    least 95% of the other. *)
Theorem X9_crop_is_skipped_only_for_near_squares height width depth item
    tolerance :
  Borders.cropped_image (Borders.Array3 height width depth item) tolerance
  = Some Borders.Whole →
  19 * Z.of_nat width ≤ 20 * Z.of_nat height
  ∧ 19 * Z.of_nat height ≤ 20 * Z.of_nat width.
Proof.
  intros Hc.
  destruct (BordersFacts.cropped_image_spec _ _ _ _ _ _ Hc)
    as (x0 & y0 & x1 & y1 & Hne & Hb & [(_ & Hw & Hh)|?]); [|done].
  destruct (BordersFacts.bounds_spec _ _ _ _ _ Hne Hb)
    as (_ & (r0 & c0 & Hin0 & <-) & (r1 & c1 & Hin1 & <-)
        & (r2 & c2 & Hin2 & <-) & (r3 & c3 & Hin3 & <-)).
  apply BordersFacts.argwhere_elem in Hin0, Hin1, Hin2, Hin3. lia.
Qed.

(** X9 at work on a bright square. *)
Lemma X9_crop_is_skipped_only_for_near_squares_witness :
  Borders.cropped_image Pictures.square 5 = Some Borders.Whole
  ∧ 19 * Z.of_nat 2 ≤ 20 * Z.of_nat 2.
Proof.
  split; [reflexivity|].
  destruct (X9_crop_is_skipped_only_for_near_squares 2 2 3 Pictures.wide_item
              5 eq_refl) as [H _].
  exact H.
Defined.

(** X10 ([remove_black_borders_and_resize]): the box handed to [image.crop]
    lies within the picture and holds every pixel whose bands are all above
    the tolerance: its columns run from [left] to [right], its rows from
    [upper] to [lower]. *)
Theorem X10_crop_box_encloses_content height width depth item tolerance
    left_ upper right_ lower row col :
  Borders.cropped_image (Borders.Array3 height width depth item) tolerance
  = Some (Borders.Crop (left_, upper, right_, lower)) →
  (row < height)%nat → (col < width)%nat →
  Borders.mask depth item tolerance row col = true →
  (0 ≤ left_ ∧ left_ ≤ Z.of_nat col < right_ ∧ right_ ≤ Z.of_nat width)
  ∧ (0 ≤ upper ∧ upper ≤ Z.of_nat row < lower ∧ lower ≤ Z.of_nat height).
Proof.
  intros Hc Hr Hcol Hm.
  destruct (BordersFacts.cropped_image_spec _ _ _ _ _ _ Hc)
    as (x0 & y0 & x1 & y1 & Hne & Hb & [(? & _)|[= -> -> -> ->]]); [done|].
  destruct (BordersFacts.bounds_spec _ _ _ _ _ Hne Hb)
    as (Hall & (r0 & c0 & Hin0 & E0) & (r1 & c1 & Hin1 & E1)
        & (r2 & c2 & Hin2 & E2) & (r3 & c3 & Hin3 & E3)).
  apply BordersFacts.argwhere_elem in Hin0, Hin1, Hin2, Hin3.
  destruct (Hall row col) as [? ?]; [by apply BordersFacts.argwhere_elem|].
  lia.
Qed.

(** X10 at work: the bright block of the framed picture. *)
Lemma X10_crop_box_encloses_content_witness :
  Borders.cropped_image Pictures.framed 5 = Some (Borders.Crop (1, 1, 4, 3))
  ∧ (1 ≤ Z.of_nat 3 < 4).
Proof.
  split; [reflexivity|].
  destruct (X10_crop_box_encloses_content 4 5 3 Pictures.framed_item 5
              1 1 4 3 2 3 eq_refl) as [(_ & H & _) _];
    [lia|lia|reflexivity|].
  exact H.
Defined.

(** X11 ([remove_black_borders_and_resize] against [detect_borders]): the
    resizing scripts ask all bands of a pixel to be above the tolerance,
    [detect_borders] asks one.  For the same picture and tolerance the crop
    box of the former lies inside the box of the latter. *)
Theorem X11_crop_box_within_detected_box height width depth item tolerance
    left_ upper right_ lower l t r b :
  depth ≠ 0%nat →
  Borders.cropped_image (Borders.Array3 height width depth item) tolerance
  = Some (Borders.Crop (left_, upper, right_, lower)) →
  Borders.detect_borders (Borders.Array3 height width depth item) tolerance
  = Some (l, t, r, b) →
  l ≤ left_ ∧ t ≤ upper ∧ right_ ≤ r ∧ lower ≤ b.
Proof.
  intros Hd Hc [= <- <- <- <-].
  destruct (BordersFacts.cropped_image_spec _ _ _ _ _ _ Hc)
    as (x0 & y0 & x1 & y1 & Hne & Hb & [(? & _)|[= -> -> -> ->]]); [done|].
  destruct (BordersFacts.bounds_spec _ _ _ _ _ Hne Hb)
    as (_ & (r0 & c0 & Hin0 & E0) & (r1 & c1 & Hin1 & E1)
        & (r2 & c2 & Hin2 & E2) & (r3 & c3 & Hin3 & E3)).
  assert (∀ row col,
            (row, col) ∈ Borders.argwhere height width depth item tolerance →
            (Borders.leading (Borders.row_bright width depth item tolerance)
               height 0 ≤ row
             < Borders.trailing (Borders.row_bright width depth item tolerance)
                 height)%nat
            ∧ (Borders.leading (Borders.col_bright height depth item tolerance)
                 width 0 ≤ col
               < Borders.trailing
                   (Borders.col_bright height depth item tolerance) width)%nat)
    as Hin.
  { intros row col (Hr & Hcol & Hm)%BordersFacts.argwhere_elem.
    assert (tolerance < item row col 0%nat) as Hlt.
    { apply (proj1 (BordersFacts.mask_true depth item tolerance row col) Hm).
      lia. }
    split.
    - apply BordersFacts.edges_enclose; [done|].
      apply BordersFacts.row_bright_true. exists col, 0%nat.
      repeat split; [done|lia|done].
    - apply BordersFacts.edges_enclose; [done|].
      apply BordersFacts.col_bright_true. exists row, 0%nat.
      repeat split; [done|lia|done]. }
  apply Hin in Hin0, Hin1, Hin2, Hin3. lia.
Qed.

(** X11 at work on the framed picture, where the two boxes agree. *)
Lemma X11_crop_box_within_detected_box_witness :
  Borders.cropped_image Pictures.framed 5 = Some (Borders.Crop (1, 1, 4, 3))
  ∧ Borders.detect_borders Pictures.framed 5 = Some (1, 1, 4, 3)
  ∧ 1 ≤ 1.
Proof.
  split; [reflexivity|]. split; [reflexivity|].
  destruct (X11_crop_box_within_detected_box 4 5 3 Pictures.framed_item 5
              1 1 4 3 1 1 4 3) as [H _]; [lia|reflexivity|reflexivity|].
  exact H.
Defined.

(** X12 ([remove_black_borders_and_resize]): a picture in which every pixel
    has some band at or below the tolerance (pure red, say) counts as having
    no content: [False] is returned, nothing is saved and the source file is
    kept. *)
Theorem X12_saturated_colours_count_as_black image_path output_path p resized
    height width depth item tolerance :
  Borders.convert_rgb p = Borders.Array3 height width depth item →
  (∀ row col, (row < height)%nat → (col < width)%nat →
     ∃ band, (band < depth)%nat ∧ item row col band ≤ tolerance) →
  Borders.remove_black_borders_and_resize image_path output_path (Some p)
    resized tolerance
  = (false, []).
Proof.
  intros Hc Hsat. unfold Borders.remove_black_borders_and_resize.
  rewrite Hc. unfold Borders.cropped_image. simpl Borders.size. cbv iota beta.
  destruct (Borders.argwhere height width depth item tolerance)
    as [|[row col] l] eqn:Ha; [done|].
  assert ((row, col) ∈ Borders.argwhere height width depth item tolerance)
    as (Hr & Hcol & Hm)%BordersFacts.argwhere_elem by (rewrite Ha; left).
  destruct (Hsat row col Hr Hcol) as (band & Hb & Hle).
  pose proof (proj1 (BordersFacts.mask_true depth item tolerance row col) Hm
                band Hb). lia.
Qed.

(** X12 at work on the picture of pure red, which [detect_borders] takes for
    content from edge to edge. *)
Lemma X12_saturated_colours_count_as_black_witness :
  Borders.detect_borders Pictures.red 5 = Some (0, 0, 2, 2)
  ∧ Borders.remove_black_borders_and_resize "in/r.png" "out/r.png"
      (Some (Borders.mkPicture "RGB" Pictures.red)) (λ _, Pictures.red) 5
    = (false, []).
Proof.
  split; [reflexivity|].
  apply (X12_saturated_colours_count_as_black "in/r.png" "out/r.png"
           (Borders.mkPicture "RGB" Pictures.red) (λ _, Pictures.red)
           2 2 3 Pictures.red_item 5 eq_refl).
  intros row col _ _. exists 1%nat. split; [lia|]. unfold Pictures.red_item.
  simpl. lia.
Defined.

(** X13 ([write_log_to_csv] then [load_processed_images], V3.1 and V3.2):
    what is appended to the log is read back.  When the old file loads to
    [m], the file after the writing loads to [m] with each new entry's hash
    text mapped to its batch number, later entries winning; batch numbers
    survive [str] and [int]. *)
Theorem X13_log_is_read_back file entries m :
  file ≠ Some [] →
  Ledger.load_processed_images file = Some m →
  Ledger.load_processed_images (Some (Ledger.write_log_to_csv file entries))
  = Some (foldl (λ m e, <[Ledger.KStr (Ledger.e_hash e)
                           := Ledger.e_batch_number e]> m) m entries).
Proof.
  intros Hne Hload. unfold Ledger.load_processed_images in *.
  destruct file as [[|head rows]|]; [done|..]; simpl in *.
  - rewrite LedgerFacts.load_rows_app, Hload. simpl.
    apply LedgerFacts.load_rows_entries.
  - injection Hload as <-. apply LedgerFacts.load_rows_entries.
Qed.

(** X13 at work: one entry written to a new file. *)
Lemma X13_log_is_read_back_witness :
  Ledger.load_processed_images
    (Some (Ledger.write_log_to_csv None
             [Ledger.mkLogEntry "Cat" "main" 12 "0000000000000005" "a.png"]))
  = Some (<[Ledger.KStr "0000000000000005" := 12]> ∅).
Proof.
  apply (X13_log_is_read_back None
           [Ledger.mkLogEntry "Cat" "main" 12 "0000000000000005" "a.png"] ∅);
    [discriminate|reflexivity].
Defined.

(** X14 ([write_log_to_csv] then [load_processed_images]): a log file that
    exists but is empty gets no header line, and the next loading skips the
    first entry in its place. *)
Theorem X14_empty_log_file_loses_first_entry e entries :
  Ledger.write_log_to_csv (Some []) (e :: entries)
  = Ledger.row_of_entry <$> (e :: entries)
  ∧ Ledger.load_processed_images
      (Some (Ledger.write_log_to_csv (Some []) (e :: entries)))
    = Some (foldl (λ m e, <[Ledger.KStr (Ledger.e_hash e)
                             := Ledger.e_batch_number e]> m) ∅ entries).
Proof.
  split; [reflexivity|].
  unfold Ledger.load_processed_images, Ledger.write_log_to_csv. simpl.
  apply LedgerFacts.load_rows_entries.
Qed.

(** X15 ([stitch_images], V3.1 and V3.2): a run that ends normally appends to
    the log as many entries as the grid has cells for each grid it saved, and
    nothing for the pictures of a batch that was not rendered. *)
Theorem X15_log_entries_per_saved_grid version input_dir log_csv grid_size
    image_size r :
  Pipeline.stitch_images version input_dir log_csv grid_size image_size
  = Some r →
  Pipeline.finished r = true →
  ∃ entries,
    Pipeline.ledger r = Some (Ledger.write_log_to_csv log_csv entries)
    ∧ Z.of_nat (length entries)
      = Pipeline.capacity grid_size
        * Z.of_nat (length (Pipeline.saved (Pipeline.trace (Pipeline.final r)))).
Proof.
  intros Hrun Hfin.
  destruct (PipelineFacts.stitch_images_spec version grid_size image_size
              input_dir log_csv) as (r' & Hr' & _ & Hlen & Hdone & _).
  rewrite Hrun in Hr'. injection Hr' as <-.
  destruct (Hdone Hfin) as (t & _ & _ & Hledger).
  by exists (Pipeline.log_entries (Pipeline.final r)).
Qed.

(** X15 at work: one picture and a grid of two cells leave the log with its
    header only. *)
Lemma X15_log_entries_per_saved_grid_witness :
  ∃ r entries,
    Pipeline.stitch_images Pipeline.V32 Examples.single None (1, 2) (512, 512)
    = Some r
    ∧ Pipeline.ledger r = Some (Ledger.write_log_to_csv None entries)
    ∧ Z.of_nat (length entries) = 2 * Z.of_nat 0.
Proof.
  destruct (Pipeline.stitch_images Pipeline.V32 Examples.single None (1, 2)
              (512, 512)) as [r|] eqn:Hrun;
    [|vm_compute in Hrun; discriminate Hrun].
  destruct (X15_log_entries_per_saved_grid Pipeline.V32 Examples.single None
              (1, 2) (512, 512) r Hrun) as (entries & Hl & Hn).
  - vm_compute in Hrun. injection Hrun as <-. reflexivity.
  - exists r, entries. split; [reflexivity|]. split; [exact Hl|].
    vm_compute in Hrun. injection Hrun as <-. exact Hn.
Defined.



(** X17 ([process_images_in_parallel], V3.2): the order in which the futures
    complete only permutes the two lists returned. *)
Theorem X17_completion_order_only_permutes dir processed available completed :
  completed ≡ₚ available →
  (Workers.process_images_in_parallel dir processed completed).1
  ≡ₚ (Workers.process_images_in_parallel dir processed available).1
  ∧ (Workers.process_images_in_parallel dir processed completed).2
    ≡ₚ (Workers.process_images_in_parallel dir processed available).2.
Proof.
  intros Hperm. unfold Workers.process_images_in_parallel.
  rewrite !WorkersFacts.gather_spec. simpl. split.
  - by apply omap_Permutation.
  - induction Hperm as [|x l l' _ IH|x y l|l l' l'' _ IH1 _ IH2]; simpl.
    + done.
    + destruct (match FS.decode dir x with Some _ => _ | None => _ end);
        [by constructor|done].
    + repeat destruct (match FS.decode dir _ with Some _ => _ | None => _ end);
        (done || by constructor).
    + by etrans.
Qed.

(** X17 at work on the two pictures of a pair, completed in reverse. *)
Lemma X17_completion_order_only_permutes_witness :
  (Workers.process_images_in_parallel Examples.pair_cat ∅ ["b.png"; "a.png"]).1
  ≡ₚ (Workers.process_images_in_parallel Examples.pair_cat ∅
        ["a.png"; "b.png"]).1.
Proof.
  destruct (X17_completion_order_only_permutes Examples.pair_cat ∅
              ["a.png"; "b.png"] ["b.png"; "a.png"]) as [H _].
  - apply perm_swap.
  - exact H.
Defined.

(** X18 ([process_category], V3.1 and V3.2): the counters stored for a
    subcategory that had images and was worked through, with a grid of at
    least one cell.  Checked is the number of image files of the folder,
    Stitched batches the number of grids saved for it, and Processed that
    number times the cells of the grid. *)
Theorem X18_subcategory_counters version grid_size image_size category entries
    sub dir s s' :
  Pipeline.process_subcategory version grid_size image_size category entries
    sub s = Some (Pipeline.Returned s') →
  Pipeline.subcategory_dir entries sub = Some dir →
  FS.image_files dir ≠ [] →
  0 < Pipeline.capacity grid_size →
  ∃ t,
    Pipeline.trace s' = Pipeline.trace s ++ t
    ∧ Pipeline.subcategory_counter (Pipeline.category_summaries s') category
        sub "Checked"
      = Some (Z.of_nat (length (FS.image_files dir)))
    ∧ Pipeline.subcategory_counter (Pipeline.category_summaries s') category
        sub "Stitched batches"
      = Some (Z.of_nat (length (Pipeline.saved t)))
    ∧ Pipeline.subcategory_counter (Pipeline.category_summaries s') category
        sub "Processed"
      = Some (Pipeline.capacity grid_size
              * Z.of_nat (length (Pipeline.saved t))).
Proof.
  intros Hrun Hdir Hfiles Hcap.
  destruct (SummaryFacts.process_subcategory_counts _ _ _ _ _ _ _ _ _
              Hrun Hdir Hfiles Hcap)
    as (t & n & d & Htr & _ & Hsv & Hd & Hsub & _ & Hchk & Hst & Hpr).
  exists (Pipeline.EvListdir (Pipeline.subcategory_path_of category sub) :: t).
  split; [done|].
  assert (length (Pipeline.saved t) = n) as Hn.
  { rewrite <- (length_fmap fst), Hsv. apply PipelineFacts.batch_names_length. }
  rewrite PipelineFacts.saved_listdir, Hn.
  unfold Pipeline.subcategory_counter, Pipeline.category_value.
  rewrite Hd. simpl. rewrite Hsub. simpl.
  unfold Pipeline.subcategory_summary.
  split.
  { rewrite lookup_insert_ne by done. by rewrite lookup_insert_eq, Hchk. }
  split.
  - rewrite !lookup_insert_ne by done. by rewrite lookup_insert_eq, Hst.
  - rewrite !lookup_insert_ne by done. by rewrite lookup_insert_eq, Hpr.
Qed.

(** X18 at work: two pictures and a grid of one cell. *)
Lemma X18_subcategory_counters_witness :
  ∃ s',
    Pipeline.process_subcategory Pipeline.V32 (1, 1) (512, 512) "Cat"
      Examples.pair_cat "main" Examples.midway = Some (Pipeline.Returned s')
    ∧ Pipeline.subcategory_counter (Pipeline.category_summaries s') "Cat"
        "main" "Checked" = Some (Z.of_nat 2).
Proof.
  destruct (Pipeline.process_subcategory Pipeline.V32 (1, 1) (512, 512) "Cat"
              Examples.pair_cat "main" Examples.midway)
    as [[s'|s']|] eqn:Hrun;
    [|vm_compute in Hrun; discriminate Hrun..].
  exists s'. split; [reflexivity|].
  destruct (X18_subcategory_counters Pipeline.V32 (1, 1) (512, 512) "Cat"
              Examples.pair_cat "main" Examples.pair_cat Examples.midway s'
              Hrun eq_refl) as (t & _ & H & _).
  - intros Hnil. vm_compute in Hnil. discriminate Hnil.
  - reflexivity.
  - exact H.
Defined.

(** X19 ([process_category], V3.1 and V3.2): in a subcategory that is worked
    through with a grid of at least one cell, the files opened are the image
    files of the folder, each once, in the order of the listing. *)
Theorem X19_every_image_file_is_opened_once version grid_size image_size
    category entries sub dir s s' :
  Pipeline.process_subcategory version grid_size image_size category entries
    sub s = Some (Pipeline.Returned s') →
  Pipeline.subcategory_dir entries sub = Some dir →
  FS.image_files dir ≠ [] →
  0 < Pipeline.capacity grid_size →
  ∃ t,
    Pipeline.trace s' = Pipeline.trace s ++ t
    ∧ Pipeline.opened t
      = (λ f, Pipeline.subcategory_path_of category sub ++ [f])
          <$> FS.image_files dir.
Proof.
  intros Hrun Hdir Hfiles Hcap.
  destruct (SummaryFacts.process_subcategory_counts _ _ _ _ _ _ _ _ _
              Hrun Hdir Hfiles Hcap) as (t & n & d & Htr & Hop & _).
  exists (Pipeline.EvListdir (Pipeline.subcategory_path_of category sub) :: t).
  split; [done|]. by rewrite PipelineFacts.opened_listdir.
Qed.

(** X19 at work: two pictures and a grid of four cells; both are opened,
    none is saved. *)
Lemma X19_every_image_file_is_opened_once_witness :
  ∃ s' t,
    Pipeline.process_subcategory Pipeline.V32 (2, 2) (512, 512) "Cat"
      Examples.pair_cat "main" Examples.midway = Some (Pipeline.Returned s')
    ∧ Pipeline.trace s' = Pipeline.trace Examples.midway ++ t
    ∧ Pipeline.opened t = [["Cat"; "a.png"]; ["Cat"; "b.png"]].
Proof.
  destruct (Pipeline.process_subcategory Pipeline.V32 (2, 2) (512, 512) "Cat"
              Examples.pair_cat "main" Examples.midway)
    as [[s'|s']|] eqn:Hrun;
    [|vm_compute in Hrun; discriminate Hrun..].
  destruct (X19_every_image_file_is_opened_once Pipeline.V32 (2, 2) (512, 512)
              "Cat" Examples.pair_cat "main" Examples.pair_cat Examples.midway
              s' Hrun eq_refl) as (t & Ht & Hop).
  - intros Hnil. vm_compute in Hnil. discriminate Hnil.
  - reflexivity.
  - exists s', t. split; [reflexivity|]. split; [exact Ht|exact Hop].
Defined.



(** X21 ([stitch_images], V3.1 and V3.2): within one run no picture hash is
    logged twice.  The hash texts of the entries of the log are the texts of
    pairwise different hashes, each of them a key of the index at the end:
    a hash is put into the index when its picture is taken into a pool, and
    a later picture with that hash is turned away. *)
Theorem X21_no_hash_is_logged_twice_in_a_run version input_dir log_csv
    grid_size image_size r :
  Pipeline.stitch_images version input_dir log_csv grid_size image_size
  = Some r →
  ∃ hs,
    NoDup hs
    ∧ Ledger.e_hash <$> Pipeline.log_entries (Pipeline.final r)
      = Ledger.str_of_hash <$> hs
    ∧ ∀ h, h ∈ hs →
        is_Some (Pipeline.processed_images (Pipeline.final r)
                 !! Ledger.KHash h).
Proof.
  intros Hrun.
  apply (InvariantFacts.stitch_images_keeps version grid_size image_size
           (λ L M, ∃ hs, NoDup hs
                         ∧ Ledger.e_hash <$> L = Ledger.str_of_hash <$> hs
                         ∧ ∀ h, h ∈ hs → is_Some (M !! Ledger.KHash h)))
    with (input_dir := input_dir) (log_csv := log_csv); [|done|..].
  - intros category subcategory path dir s.
    apply InvariantFacts.cycle_fresh.
  - intros m _. exists []. split; [constructor|]. split; [done|].
    intros h Hh. by apply elem_of_nil in Hh.
  - exists []. split; [constructor|]. split; [done|].
    intros h Hh. by apply elem_of_nil in Hh.
Qed.

(** X21 at work on the gallery, where [s.png] shows the picture of [a.png]
    again and is left out of the log. *)
Lemma X21_no_hash_is_logged_twice_in_a_run_witness :
  ∃ r hs,
    Pipeline.stitch_images Pipeline.V32 Examples.gallery None (1, 1) (512, 512)
    = Some r
    ∧ NoDup hs
    ∧ Ledger.e_hash <$> Pipeline.log_entries (Pipeline.final r)
      = Ledger.str_of_hash <$> hs.
Proof.
  destruct (Pipeline.stitch_images Pipeline.V32 Examples.gallery None (1, 1)
              (512, 512)) as [r|] eqn:Hrun.
  - destruct (X21_no_hash_is_logged_twice_in_a_run Pipeline.V32
                Examples.gallery None (1, 1) (512, 512) r Hrun)
      as (hs & Hnd & Heq & _).
    exists r, hs. split; [reflexivity|]. split; [exact Hnd|exact Heq].
  - vm_compute in Hrun. discriminate Hrun.
Defined.
